(** * play_and_record: a shallow embedding of [src/play_and_record.py]

    The program walks an input directory for WAV files ([get_wavfiles]) and,
    for each of them, plays the samples through a duplex audio device while
    recording the input channel ([play_and_rec]).

    Conventions of the embedding:
    - a sample is an IEEE-754 binary64 value ([spec_float] of the Standard
      Library at precision 53 and maximal exponent 1024); integer PCM data
      (8, 16, 24 and 32 bit) and the 32-bit floats delivered by the audio
      device embed into binary64 without rounding;
    - the arithmetic of line 28 is done in the type NumPy gives its
      operands: the samples of a file are divided in binary32 when they are
      [float32] data and in binary64 when they are integer or [float64]
      data; the divisor of [float32] data depends on the release of NumPy,
      whose rules ([promotion]) the program is given as [rules];
    - the file system is a list of directories and a list of WAV files,
      each known by the text of its path (trailing slashes of a directory
      apart), the root directory being always there; two spellings of one
      path ([a/./b] and [a/b], a relative and an absolute path, a link) are
      two entries, so the statements are about a path read back under the
      text it was written under, and about nothing else on the disk;
    - a NumPy array of one dimension is a [list] of samples;
    - a Python exception is an [exn] carried by the [result] type;
    - the file system and the figures shown so far form the [world] that
      [play_and_rec] threads through its calls;
    - paths follow [posixpath]. *)

From Stdlib Require Import ZArith QArith Qround List String Ascii Bool Lia.
From Stdlib Require Import Floats.SpecFloat.
Import ListNotations.

Set Warnings "-register-all".
Close Scope Q_scope.

(** ** Python exceptions and results *)

Inductive exn : Type :=
| ValueError
| ZeroDivisionError
| FileNotFoundError
| FileExistsError
| IsADirectoryError
| NotADirectoryError
| RecursionError
| PortAudioError.

Inductive result (A : Type) : Type :=
| Ok (a : A)
| Err (e : exn).

Arguments Ok {A} a.
Arguments Err {A} e.

(** ** Binary64 arithmetic, as NumPy's [float64] and Python's [float] *)

Module Binary64.

Definition prec : Z := 53.
Definition emax : Z := 1024.

Definition float : Type := spec_float.

(** Conversion of a Python [int]; exact below [2^53]. *)
Definition of_Z (z : Z) : float := binary_normalize prec emax z 0 false.

Definition mul : float -> float -> float := SFmul prec emax.
Definition div : float -> float -> float := SFdiv prec emax.
Definition abs : float -> float := SFabs.
Definition ltb : float -> float -> bool := SFltb.
Definition leb : float -> float -> bool := SFleb.

Definition zero : float := S754_zero false.
Definition nan : float := S754_nan.

Definition is_nan (x : float) : bool :=
  match x with S754_nan => true | _ => false end.

Definition is_zero (x : float) : bool :=
  match x with S754_zero _ => true | _ => false end.

Definition is_finite (x : float) : bool :=
  match x with S754_zero _ | S754_finite _ _ _ => true | _ => false end.

(** The literal [0.8]: the binary64 value nearest to 8/10. *)
Definition c0_8 : float := Eval vm_compute in div (of_Z 8) (of_Z 10).

(** The literal [1.0]. *)
Definition c1_0 : float := Eval vm_compute in of_Z 1.

End Binary64.

Definition sample : Type := Binary64.float.
Definition buffer : Type := list sample.

(** ** Binary32 arithmetic, as NumPy's [float32] *)

Module Binary32.

Definition prec : Z := 24.
Definition emax : Z := 128.

(** The [float32] nearest to a binary64 value. *)
Definition of_float64 (x : sample) : sample :=
  match x with
  | S754_finite s m e =>
      binary_normalize prec emax (if s then Z.neg m else Z.pos m) e s
  | _ => x
  end.

Definition mul : sample -> sample -> sample := SFmul prec emax.
Definition div : sample -> sample -> sample := SFdiv prec emax.

(** The Python float [0.8] taken as a [float32]. *)
Definition c0_8 : sample := Eval vm_compute in of_float64 Binary64.c0_8.

End Binary32.

(** The sample types of the arrays [scipy.io.wavfile.read] returns: integer
    PCM ([uint8], [int16], [int32]), [float32] and [float64].  The values of
    an array of any of them are kept as [sample]s. *)
Inductive dtype : Type :=
| Integer
| Float32
| Float64.

(** The rules by which NumPy gives a type to the result of an operation on
    a Python float or a scalar and an array: those of NumPy 1, where the
    value of a scalar counts, and those of NumPy 2 (NEP 50), where a Python
    float takes the type of the other operand. *)
Inductive promotion : Type :=
| Legacy
| Nep50.

(** ** The NumPy operations the program calls *)

Module Np.

Import Binary64.

(** [np.maximum] on two floats: a NaN on either side wins. *)
Definition maximum (a b : sample) : sample :=
  if leb b a || is_nan a then a else b.

(** [a.max()]: a reduction from the first element; an empty array has no
    maximum and raises [ValueError]. *)
Definition max (a : buffer) : result sample :=
  match a with
  | [] => Err ValueError
  | x :: t => Ok (fold_left maximum t x)
  end.

(** [c * m] for a Python float [c] and a scalar [m] taken from an array of
    type [dt], as the divisor of an array of that type.  An integer or
    [float64] scalar gives a [float64].  With a [float32] scalar, NumPy 2
    takes [c] to [float32] and gives the [float32] product; NumPy 1 gives
    the [float64] product, which the division of a [float32] array then
    takes to [float32]. *)
Definition scale (rules : promotion) (dt : dtype) (c m : sample) : sample :=
  match dt, rules with
  | Float32, Nep50 => Binary32.mul (Binary32.of_float64 c) m
  | Float32, Legacy => Binary32.of_float64 (Binary64.mul c m)
  | _, _ => Binary64.mul c m
  end.

(** [x / d] for a sample [x] of an array of type [dt] and the scalar [d] of
    [scale]: in [float32] for a [float32] array, in [float64] for an integer
    or [float64] array. *)
Definition divide (dt : dtype) (x d : sample) : sample :=
  match dt with
  | Float32 => Binary32.div x d
  | Integer | Float64 => div x d
  end.

(** [a / d] with a scalar [d]: element-wise, never raising (a division by
    zero gives an infinity or a NaN, with a warning only). *)
Definition divide_scalar (dt : dtype) (a : buffer) (d : sample) : buffer :=
  map (fun x => divide dt x d) a.

(** [np.pad(a, (0, n), mode='constant', constant_values=0)]: a negative
    width raises [ValueError]. *)
Definition pad_right (a : buffer) (n : Z) : result buffer :=
  if (n <? 0)%Z then Err ValueError
  else Ok (a ++ repeat zero (Z.to_nat n)).

(** [abs(a) > eps], element-wise; a NaN compares false. *)
Definition abs_gt (a : buffer) (eps : sample) : list bool :=
  map (fun x => ltb eps (abs x)) a.

(** The scan of [np.argmax]: the running maximum [best] found at [besti],
    replaced only by a strictly greater entry, so that the first maximum is
    the one returned. *)
Fixpoint argmax_scan (best : bool) (besti i : nat) (l : list bool) : nat :=
  match l with
  | [] => besti
  | b :: t =>
      if b && negb best then argmax_scan b i (S i) t
      else argmax_scan best besti (S i) t
  end.

(** [np.argmax] of a boolean array; an empty array raises [ValueError]. *)
Definition argmax (l : list bool) : result nat :=
  match l with
  | [] => Err ValueError
  | b :: t => Ok (argmax_scan b 0 1 t)
  end.

(** The slice [a[i:]]. *)
Definition slice_from (a : buffer) (i : nat) : buffer := skipn i a.

End Np.

(** ** Python built-ins *)

Module Py.

(** [round(x)] with one argument: to the nearest integer, a tie going to
    the even one.  The only argument of [round] in the program is [0.5*fs]
    for the integer sampling rate [fs] of a WAV header (below [2^32]); that
    product is exact in binary64, so the argument is taken as a rational. *)
Definition round (x : Q) : Z :=
  let f := Qfloor x in
  match Qcompare (x - inject_Z f)%Q (1 # 2)%Q with
  | Lt => f
  | Gt => (f + 1)%Z
  | Eq => if Z.even f then f else (f + 1)%Z
  end.

End Py.

(** ** The signal steps of [play_and_rec] *)

(** Line 28: [pb_samples/(0.8 * pb_samples.max())], for an array
    [pb_samples] of type [dt]. *)
Definition normalise_samples (rules : promotion) (dt : dtype)
  (pb_samples : buffer) : result buffer :=
  match Np.max pb_samples with
  | Err e => Err e
  | Ok m =>
      Ok (Np.divide_scalar dt pb_samples
            (Np.scale rules dt Binary64.c0_8 m))
  end.

(** Lines 27-28. *)
Definition normalise_step (rules : promotion) (normalise : bool)
  (dt : dtype) (pb_samples : buffer) : result buffer :=
  if normalise then normalise_samples rules dt pb_samples else Ok pb_samples.

(** Line 29: [np.pad(pb_samples, (0, round(0.5*fs)), ...)]. *)
Definition pad_playback (fs : Z) (pb_samples : buffer) : result buffer :=
  Np.pad_right pb_samples (Py.round (0.5 * inject_Z fs)%Q).

(** Line 32: [eps = 3 * 1.0/(2**15)]. *)
Definition eps : sample :=
  Eval vm_compute in
    Binary64.div (Binary64.mul (Binary64.of_Z 3) Binary64.c1_0)
                 (Binary64.of_Z (2 ^ 15)).

(** Lines 33-34. *)
Definition remove_latency (rec_samples : buffer) : result buffer :=
  match Np.argmax (Np.abs_gt rec_samples eps) with
  | Err e => Err e
  | Ok ind => Ok (Np.slice_from rec_samples ind)
  end.

(** Lines 31-34. *)
Definition latency_step (rm_latency : bool) (rec_samples : buffer)
  : result buffer :=
  if rm_latency then remove_latency rec_samples else Ok rec_samples.

(** ** Python strings *)

Module Str.

Local Open Scope string_scope.

Definition nonempty (s : string) : bool :=
  match s with EmptyString => false | String _ _ => true end.

(** [s.startswith(p)]. *)
Definition startswith (s p : string) : bool := String.prefix p s.

(** [s.endswith(x)]: the last [len(x)] characters of [s] are [x]. *)
Definition endswith (s x : string) : bool :=
  let n := String.length s in
  let k := String.length x in
  (k <=? n)%nat && String.eqb (substring (n - k) k s) x.

(** The scan of [s.rfind(c)]: [last] is the last index seen so far. *)
Fixpoint rfind_from (c : ascii) (s : string) (i : nat) (last : Z) : Z :=
  match s with
  | EmptyString => last
  | String a t =>
      rfind_from c t (S i) (if Ascii.eqb a c then Z.of_nat i else last)
  end.

(** [s.rfind(c)]: the index of the last [c] in [s], or [-1]. *)
Definition rfind (s : string) (c : ascii) : Z := rfind_from c s 0 (-1).

(** [s.rstrip(c)]. *)
Fixpoint rstrip (s : string) (c : ascii) : string :=
  match s with
  | EmptyString => EmptyString
  | String a t =>
      let t' := rstrip t c in
      if negb (nonempty t') && Ascii.eqb a c then EmptyString
      else String a t'
  end.

(** [s == c * len(s)]. *)
Fixpoint all_char (s : string) (c : ascii) : bool :=
  match s with
  | EmptyString => true
  | String a t => Ascii.eqb a c && all_char t c
  end.

(** [s.replace("", new)]: [new] before every character and at the end. *)
Fixpoint interleave (s new : string) : string :=
  match s with
  | EmptyString => new
  | String a t => new ++ String a (interleave t new)
  end.

(** The scan of [s.replace(old, new)] for a non-empty [old]: occurrences
    are taken from the left and do not overlap; [skip] counts the
    characters of the occurrence just replaced that are still ahead. *)
Fixpoint replace_scan (old new : string) (skip : nat) (s : string)
  : string :=
  match s with
  | EmptyString => EmptyString
  | String a t =>
      match skip with
      | S k => replace_scan old new k t
      | O =>
          if String.prefix old s
          then new ++ replace_scan old new (String.length old - 1) t
          else String a (replace_scan old new 0 t)
      end
  end.

(** [s.replace(old, new)]: every occurrence is replaced. *)
Definition replace (s old new : string) : string :=
  if nonempty old then replace_scan old new 0 s else interleave s new.

End Str.

(** ** [posixpath] *)

Module OsPath.

Local Open Scope string_scope.

Definition sep : ascii := "/"%char.

(** [os.path.join(a, b)]. *)
Definition join (a b : string) : string :=
  if Str.startswith b "/" then b
  else if negb (Str.nonempty a) || Str.endswith a "/" then a ++ b
  else a ++ "/" ++ b.

(** [os.path.split(p)]. *)
Definition split (p : string) : string * string :=
  let i := Z.to_nat (Str.rfind p sep + 1) in
  let head := substring 0 i p in
  let tail := substring i (String.length p - i) p in
  let head :=
    if Str.nonempty head && negb (Str.all_char head sep)
    then Str.rstrip head sep else head in
  (head, tail).

(** [os.path.dirname(p)]. *)
Definition dirname (p : string) : string :=
  let i := Z.to_nat (Str.rfind p sep + 1) in
  let head := substring 0 i p in
  if Str.nonempty head && negb (Str.all_char head sep)
  then Str.rstrip head sep else head.

End OsPath.

(** ** File discovery *)

(** The directory found at a path: the names of its files and its
    sub-directories, in the order the system lists them. *)
Inductive dirtree : Type :=
| Dir (filenames : list string) (subdirs : list (string * dirtree)).

(** The triples [(root, directories, filenames)] of [os.walk], top down. *)
Fixpoint walk_tree (top : string) (t : dirtree)
  : list (string * list string * list string) :=
  match t with
  | Dir filenames subdirs =>
      (top, map fst subdirs, filenames)
        :: flat_map (fun d => walk_tree (OsPath.join top (fst d)) (snd d))
                    subdirs
  end.

(** [os.walk(top)]: [scan] tells which directory, if any, a path names; a
    path that names none yields nothing (errors of the scan are ignored). *)
Definition os_walk (scan : string -> option dirtree) (top : string)
  : list (string * list string * list string) :=
  match scan top with
  | Some t => walk_tree top t
  | None => []
  end.

(** The test of line 69. *)
Definition is_wav (f : string) : bool :=
  Str.endswith f ".WAV" || Str.endswith f ".wav".

(** Lines 70-73: the pair emitted for [filename] found in [root]. *)
Definition wavfile_pair (input_dir output_dir root filename : string)
  : string * string :=
  let in_file := OsPath.join root filename in
  let output_path := Str.replace root input_dir output_dir in
  let out_file := OsPath.join output_path filename in
  (in_file, out_file).

Definition get_wavfiles (scan : string -> option dirtree)
  (input_dir output_dir : string) : list (string * string) :=
  flat_map
    (fun '(root, _, filenames) =>
       map (wavfile_pair input_dir output_dir root)
           (filter is_wav filenames))
    (os_walk scan input_dir).

(** ** The world of [play_and_rec] *)

(** What [scipy.io.wavfile] reads from and writes to a WAV file. *)
Record wav : Type :=
  mkWav { wav_rate : Z; wav_dtype : dtype; wav_data : buffer }.

(** A figure shown by [matplotlib]. *)
Record figure : Type :=
  mkFigure { fig_num : nat; fig_title : string; fig_data : buffer }.

(** Directories and WAV files by the text of their path (the newest entry
    of a path first), and the figures shown, oldest first. *)
Record world : Type :=
  mkWorld { w_dirs : list string;
            w_files : list (string * wav);
            w_figures : list figure }.

(** A computation on the world that may raise; the world reached when an
    exception is raised is kept. *)
Definition M (A : Type) : Type := world -> result A * world.

Definition ret {A} (a : A) : M A := fun w => (Ok a, w).

Definition raise {A} (e : exn) : M A := fun w => (Err e, w).

Definition bind {A B} (c : M A) (k : A -> M B) : M B :=
  fun w =>
    match c w with
    | (Ok a, w') => k a w'
    | (Err e, w') => (Err e, w')
    end.

(** A call that does not touch the world. *)
Definition lift {A} (r : result A) : M A := fun w => (r, w).

(** [try: c  except e: pass]. *)
Definition try_except_pass (c : M unit) (e : exn -> bool) : M unit :=
  fun w =>
    match c w with
    | (Err x, w') => if e x then (Ok tt, w') else (Err x, w')
    | r => r
    end.

Declare Scope py_scope.
Delimit Scope py_scope with py.

Notation "x <- c ;; k" := (bind c (fun x => k))
  (at level 61, c at next level, right associativity) : py_scope.
Notation "' p <- c ;; k" := (bind c (fun p => k))
  (at level 61, p pattern, c at next level, right associativity) : py_scope.
Notation "c ;; k" := (bind c (fun _ => k))
  (at level 61, right associativity) : py_scope.

(** *** The [os] module *)

Module Os.

Local Open Scope string_scope.
Local Open Scope py_scope.

Definition mem (p : string) (l : list string) : bool :=
  existsb (String.eqb p) l.

Definition lookup (p : string) (l : list (string * wav)) : option wav :=
  match find (fun e => String.eqb p (fst e)) l with
  | Some e => Some (snd e)
  | None => None
  end.

(** The text a directory is kept under: its path without trailing
    slashes, unless the path is made of slashes only. *)
Definition key (p : string) : string :=
  if Str.all_char p OsPath.sep then p else Str.rstrip p OsPath.sep.

(** Whether [p] names a directory, given the directories made: the empty
    path names nothing, a path made of slashes names the root, which is
    always there. *)
Definition dir_in (p : string) (dirs : list string) : bool :=
  Str.nonempty p && (Str.all_char p OsPath.sep || mem (key p) dirs).

(** [os.path.isdir(p)]. *)
Definition isdir (p : string) : M bool :=
  fun w => (Ok (dir_in p (w_dirs w)), w).

Definition isfile (p : string) : M bool :=
  fun w =>
    (Ok (Str.nonempty p
         && match lookup p (w_files w) with Some _ => true | None => false end),
     w).

(** [os.path.exists(p)]. *)
Definition exists_ (p : string) : M bool :=
  d <- isdir p ;; f <- isfile p ;; ret (d || f).

(** The directories a path goes through, the nearest first. *)
Fixpoint ancestors_fuel (fuel : nat) (p : string) : list string :=
  match fuel with
  | O => []
  | S fuel' =>
      let d := OsPath.dirname p in
      if Str.nonempty d && negb (String.eqb d p)
      then d :: ancestors_fuel fuel' d
      else []
  end.

Definition ancestors (p : string) : list string :=
  ancestors_fuel (String.length p) p.

(** Whether [p] goes through a file: no entry is found or made below a
    file ([ENOTDIR]). *)
Definition below_file (p : string) : M bool :=
  fun w =>
    (Ok (existsb
           (fun d =>
              match lookup d (w_files w) with
              | Some _ => true
              | None => false
              end)
           (ancestors p)),
     w).

(** The directory that has to exist for an entry [p] to be created: none
    for a name of the current directory. *)
Definition parent_exists (p : string) : M bool :=
  let d := OsPath.dirname p in
  if Str.nonempty d then isdir d else ret true.

(** [os.mkdir(name)], trailing slashes of [name] apart: [ENOENT] for the
    empty path and for a missing parent, [EEXIST] for a path that is taken,
    [ENOTDIR] for a path through a file. *)
Definition mkdir (name : string) : M unit :=
  if negb (Str.nonempty name) then raise FileNotFoundError
  else
    taken <- exists_ (key name) ;;
    if (taken : bool) then raise FileExistsError
    else
      blocked <- below_file (key name) ;;
      if (blocked : bool) then raise NotADirectoryError
      else
        up <- parent_exists (key name) ;;
        if (up : bool)
        then fun w =>
               (Ok tt,
                mkWorld (key name :: w_dirs w) (w_files w) (w_figures w))
        else raise FileNotFoundError.

(** [os.makedirs(name)] with [exist_ok=False]; [fuel] bounds the depth of
    the recursion on the head of the path. *)
Fixpoint makedirs_fuel (fuel : nat) (name : string) : M unit :=
  let '(head, tail) := OsPath.split name in
  let '(head, tail) :=
    if negb (Str.nonempty tail) then OsPath.split head else (head, tail) in
  there <- exists_ head ;;
  if Str.nonempty head && Str.nonempty tail && negb there
  then
    match fuel with
    | O => raise RecursionError
    | S fuel' =>
        try_except_pass (makedirs_fuel fuel' head)
          (fun e => match e with FileExistsError => true | _ => false end) ;;
        if String.eqb tail "." then ret tt else mkdir name
    end
  else mkdir name.

(** Every recursive call is on a strictly shorter path, so the length of
    the path is fuel enough. *)
Definition makedirs (name : string) : M unit :=
  makedirs_fuel (String.length name) name.

End Os.

(** *** [scipy.io.wavfile] and [matplotlib] *)

Local Open Scope py_scope.

(** [read(fname)]: the rate of the file at [fname] and its data, an array
    given by its type and its samples. *)
Definition wavfile_read (fname : string) : M (Z * dtype * buffer) :=
  fun w =>
    match Os.lookup fname (w_files w) with
    | Some f => (Ok (wav_rate f, wav_dtype f, wav_data f), w)
    | None => (Err FileNotFoundError, w)
    end.

(** [write(fname, fs, data)] for an array [data] of type [dt]: opens
    [fname] for writing, then stores the rate and the array.  The opening
    fails on the empty path ([ENOENT]), on a path through a file
    ([ENOTDIR]), in a missing directory ([ENOENT]) and on a directory
    ([EISDIR]); a path that ends in a slash can only name a directory, so
    opening it fails in every case.  Failures of the device the file is on
    (no space left, no permission) are not part of the model: a call that
    returns has written the file. *)
Definition wavfile_write (fname : string) (fs : Z) (dt : dtype)
  (data : buffer) : M unit :=
  if negb (Str.nonempty fname) then raise FileNotFoundError
  else if Str.endswith fname "/"
  then
    blocked <- Os.below_file (Os.key fname) ;;
    if (blocked : bool) then raise NotADirectoryError
    else
      up <- Os.parent_exists (Os.key fname) ;;
      if negb up then raise FileNotFoundError
      else
        f <- Os.isfile (Os.key fname) ;;
        if (f : bool) then raise NotADirectoryError
        else raise IsADirectoryError
  else
    blocked <- Os.below_file fname ;;
    if (blocked : bool) then raise NotADirectoryError
    else
      up <- Os.parent_exists fname ;;
      if negb up then raise FileNotFoundError
      else
        d <- Os.isdir fname ;;
        if (d : bool) then raise IsADirectoryError
        else fun w =>
               (Ok tt,
                mkWorld (w_dirs w) ((fname, mkWav fs dt data) :: w_files w)
                        (w_figures w)).

(** Lines 46-55.  The time axis [np.linspace(0, len(x) / fs, len(x))]
    divides by the integer [fs]; the figure is shown by [plt.show()]. *)
Definition plot_signal (x : buffer) (fs : Z) (title : string) (fig_num : nat)
  : M unit :=
  if (fs =? 0)%Z then raise ZeroDivisionError
  else fun w =>
         (Ok tt,
          mkWorld (w_dirs w) (w_files w)
                  (w_figures w ++ [mkFigure fig_num title x])).

(** ** [play_and_rec] *)

(** [sd.default.dtype]: the type of the arrays the device records. *)
Definition sd_dtype : dtype := Float32.

Section PlayAndRec.

(** The rules of the NumPy the program runs with. *)
Variable rules : promotion.

(** [sd.playrec(data, fs, channels=1, blocking=True)]: the duplex audio
    device, outside the program; it returns the recorded samples, an array
    of type [sd_dtype], or raises. *)
Variable sd_playrec : buffer -> Z -> result buffer.

(** Lines 35-38. *)
Definition write_output (rec_wav_fname : string) (fs : Z)
  (rec_samples : buffer) : M unit :=
  let output_path := OsPath.dirname rec_wav_fname in
  d <- Os.isdir output_path ;;
  (if negb d then Os.makedirs output_path else ret tt) ;;
  wavfile_write rec_wav_fname fs sd_dtype rec_samples.

(** Lines 40-42. *)
Definition show_step (show_plots : bool) (pb_samples rec_samples : buffer)
  (fs : Z) : M unit :=
  if show_plots
  then plot_signal pb_samples fs "Original" 1 ;;
       plot_signal rec_samples fs "Recorded" 2
  else ret tt.

Definition play_and_rec (pb_wav_fname rec_wav_fname : string)
  (normalise rm_latency show_plots : bool) : M (buffer * buffer * Z) :=
  ' (fs, dt, pb_samples) <- wavfile_read pb_wav_fname ;;
  pb_samples <- lift (normalise_step rules normalise dt pb_samples) ;;
  pb_samples_padded <- lift (pad_playback fs pb_samples) ;;
  rec_samples <- lift (sd_playrec pb_samples_padded fs) ;;
  rec_samples <- lift (latency_step rm_latency rec_samples) ;;
  write_output rec_wav_fname fs rec_samples ;;
  show_step show_plots pb_samples rec_samples fs ;;
  ret (rec_samples, pb_samples, fs).

(** What is left of [play_and_rec] once the playback buffer [pb_samples]
    is read and normalised: the device is called on the padded buffer. *)
Definition after_normalise (rec_wav_fname : string)
  (rm_latency show_plots : bool) (fs : Z) (pb_samples : buffer)
  : M (buffer * buffer * Z) :=
  pb_samples_padded <- lift (pad_playback fs pb_samples) ;;
  rec_samples <- lift (sd_playrec pb_samples_padded fs) ;;
  rec_samples <- lift (latency_step rm_latency rec_samples) ;;
  write_output rec_wav_fname fs rec_samples ;;
  show_step show_plots pb_samples rec_samples fs ;;
  ret (rec_samples, pb_samples, fs).

End PlayAndRec.

(** ** Predicates and test doubles used in the statements *)

(** [abs(x) > eps] for one sample, as in line 33. *)
Definition exceeds_eps (x : sample) : bool :=
  Binary64.ltb eps (Binary64.abs x).

(** [abs(x) <= eps] for one sample. *)
Definition within_eps (x : sample) : bool :=
  Binary64.leb (Binary64.abs x) eps.

(** The peak of a buffer, [abs(a).max()]. *)
Definition peak (a : buffer) : result sample :=
  Np.max (map Binary64.abs a).

(** A loopback device: what is played comes back after [delay] samples of
    silence, cut to the length of what was played. *)
Definition loopback (delay : nat) (data : buffer) (fs : Z) : result buffer :=
  Ok (firstn (List.length data) (repeat Binary64.zero delay ++ data)).

(** [file_in top t root f]: the directory [t] found at path [top] holds,
    at any depth, a directory of path [root] that lists the file [f]. *)
Inductive file_in : string -> dirtree -> string -> string -> Prop :=
| file_here top filenames subdirs f :
    In f filenames -> file_in top (Dir filenames subdirs) top f
| file_below top filenames subdirs d t root f :
    In (d, t) subdirs ->
    file_in (OsPath.join top d) t root f ->
    file_in top (Dir filenames subdirs) root f.

(** Following the words of the specification: the directory path [root],
    which starts with [input_dir], with that leading occurrence and no other
    replaced by [output_dir]. *)
Definition replace_leading_root (root input_dir output_dir : string)
  : string :=
  (output_dir
     ++ substring (String.length input_dir)
          (String.length root - String.length input_dir) root)%string.

(** The structural induction on [dirtree] that reaches the sub-directories. *)
Fixpoint dirtree_rect_subdirs (P : dirtree -> Prop)
  (step : forall filenames subdirs,
      Forall (fun d => P (snd d)) subdirs -> P (Dir filenames subdirs))
  (t : dirtree) : P t :=
  match t with
  | Dir filenames subdirs =>
      step filenames subdirs
        ((fix subs (l : list (string * dirtree))
            : Forall (fun d => P (snd d)) l :=
            match l with
            | [] => Forall_nil _
            | d :: l' =>
                Forall_cons d (dirtree_rect_subdirs P step (snd d)) (subs l')
            end) subdirs)
  end.

(** The tree of the specification's example, with two files that are not
    WAV files by their names: [input_db_small] holds [readme.txt] and the
    directories [a], with [x.wav] and [n.Wav], and [b], with [y.WAV]. *)
Definition example_scan (p : string) : option dirtree :=
  if String.eqb p "input_db_small"
  then Some (Dir ["readme.txt"%string]
               [("a"%string, Dir ["x.wav"%string; "n.Wav"%string] []);
                ("b"%string, Dir ["y.WAV"%string] [])])
  else None.

(** A tree in which the name of the input root comes back inside the name
    of a sub-directory: [in/violin/a.wav]. *)
Definition violin_scan (p : string) : option dirtree :=
  if String.eqb p "in"
  then Some (Dir [] [("violin"%string, Dir ["a.wav"%string] [])])
  else None.

(** A world for the examples: the directory [in] with the file
    [in/tone.wav], three samples [2, -1, 1] at 8 Hz, and the file
    [in/silence.wav], two zero samples at 8 Hz. *)
Definition studio : world :=
  mkWorld ["in"%string]
    [("in/tone.wav"%string,
      mkWav 8 Integer [Binary64.of_Z 2; Binary64.of_Z (-1); Binary64.of_Z 1]);
     ("in/silence.wav"%string,
      mkWav 8 Integer [Binary64.zero; Binary64.zero])]
    [].

(** The place of a value that is not a NaN in the order of [SFcompare]:
    its class (infinities outermost, the zeros together in the middle), then
    its exponent, then its mantissa. *)
Definition order_key (x : sample) : Z * Z * Z :=
  match x with
  | S754_nan => (0, 0, 0)
  | S754_zero _ => (0, 0, 0)
  | S754_infinity s => (if s then -2 else 2, 0, 0)
  | S754_finite s m e => if s then (-1, - e, - Z.pos m) else (1, e, Z.pos m)
  end%Z.

Definition lex_le (a b : Z * Z * Z) : Prop :=
  let '(c1, e1, m1) := a in
  let '(c2, e2, m2) := b in
  (c1 < c2 \/ (c1 = c2 /\ (e1 < e2 \/ (e1 = e2 /\ m1 <= m2))))%Z.

(** A device that is busy. *)
Definition busy_device (data : buffer) (fs : Z) : result buffer :=
  Err PortAudioError.

(** Two directories whose names differ only where the name of the input
    root [a] occurs: [a/ab/x.wav] and [a/bb/x.wav]. *)
Definition twin_scan (p : string) : option dirtree :=
  if String.eqb p "a"
  then Some (Dir [] [("ab"%string, Dir ["x.wav"%string] []);
                     ("bb"%string, Dir ["x.wav"%string] [])])
  else None.

(** [occurs old s]: the text [old] is found somewhere in [s]. *)
Fixpoint occurs (old s : string) : bool :=
  String.prefix old s
  || match s with
     | EmptyString => false
     | String _ t => occurs old t
     end.

(** ** The program run as a script (lines 78-84) *)

(** [time.sleep(seconds)]: the world keeps no clock, so nothing changes. *)
Definition time_sleep (seconds : Q) : M unit := ret tt.

Section Main.

Variable rules : promotion.
Variable sd_playrec : buffer -> Z -> result buffer.

(** Lines 82-84: the loop over the pairs; an exception ends it. *)
Fixpoint for_each_pair (wavfiles : list (string * string)) : M unit :=
  match wavfiles with
  | [] => ret tt
  | (pb, rec) :: rest =>
      time_sleep 0.5 ;;
      play_and_rec rules sd_playrec pb rec true true true ;;
      for_each_pair rest
  end.

(** Lines 78-84.  [scan] is the directory tree [os.walk] finds when the
    script starts. *)
Definition main (scan : string -> option dirtree) : M unit :=
  let input_dir := "input_db_small"%string in
  let output_dir := "output_db_small"%string in
  let wavfiles := get_wavfiles scan input_dir output_dir in
  for_each_pair wavfiles.

End Main.

(** [grows w w']: from [w] to [w'] directories were added at most; the files
    and the figures are the same. *)
Definition grows (w w' : world) : Prop :=
  w_files w' = w_files w
  /\ w_figures w' = w_figures w
  /\ incl (w_dirs w) (w_dirs w').

(** The two figures of lines 41-42. *)
Definition figures_of (pb_samples rec_samples : buffer) : list figure :=
  [mkFigure 1 "Original" pb_samples; mkFigure 2 "Recorded" rec_samples].

(** The run of the examples: [in/tone.wav] played through a loopback of two
    samples of latency and recorded into [out/tone.wav].  The playback
    [2, -1, 1] is normalised to [1.25, -0.625, 0.625]; the recording is the
    same followed by two of the four zeros of the padding. *)
Definition tone_playback : buffer :=
  [Binary64.div (Binary64.of_Z 5) (Binary64.of_Z 4);
   Binary64.div (Binary64.of_Z (-5)) (Binary64.of_Z 8);
   Binary64.div (Binary64.of_Z 5) (Binary64.of_Z 8)].

Definition tone_recording : buffer :=
  (tone_playback ++ [Binary64.zero; Binary64.zero])%list.

Definition studio_after : world :=
  mkWorld ("out"%string :: w_dirs studio)
    (("out/tone.wav"%string, mkWav 8 Float32 tone_recording) :: w_files studio)
    (figures_of tone_playback tone_recording).

(** Worlds for the script: the two WAV files of [example_scan], both the
    tone of [studio], and the same with no sample in the second one. *)
Definition db_world : world :=
  mkWorld ["input_db_small"%string; "input_db_small/a"%string;
           "input_db_small/b"%string]
    [("input_db_small/a/x.wav"%string,
      mkWav 8 Integer [Binary64.of_Z 2; Binary64.of_Z (-1); Binary64.of_Z 1]);
     ("input_db_small/b/y.WAV"%string,
      mkWav 8 Integer [Binary64.of_Z 2; Binary64.of_Z (-1); Binary64.of_Z 1])]
    [].

Definition db_world_empty_file : world :=
  mkWorld ["input_db_small"%string; "input_db_small/a"%string;
           "input_db_small/b"%string]
    [("input_db_small/a/x.wav"%string,
      mkWav 8 Integer [Binary64.of_Z 2; Binary64.of_Z (-1); Binary64.of_Z 1]);
     ("input_db_small/b/y.WAV"%string, mkWav 8 Integer [])]
    [].

(** An input directory without a WAV file by its name. *)
Definition notes_scan (p : string) : option dirtree :=
  if String.eqb p "input_db_small"
  then Some (Dir ["readme.txt"%string; "n.Wav"%string] [])
  else None.

(** * Facts *)

(** ** Results and the monad *)

Lemma bind_ok {A B} (c : M A) (k : A -> M B) w a w' :
  c w = (Ok a, w') -> bind c k w = k a w'.
Proof. intros H; unfold bind; rewrite H; reflexivity. Qed.

Lemma bind_err {A B} (c : M A) (k : A -> M B) w e w' :
  c w = (Err e, w') -> bind c k w = (Err e, w').
Proof. intros H; unfold bind; rewrite H; reflexivity. Qed.

Lemma bind_inv_ok {A B} (c : M A) (k : A -> M B) w b w2 :
  bind c k w = (Ok b, w2) ->
  exists a w1, c w = (Ok a, w1) /\ k a w1 = (Ok b, w2).
Proof.
  unfold bind; destruct (c w) as [[a | e] w1]; intros H.
  - exists a, w1; split; [reflexivity | exact H].
  - discriminate H.
Qed.

Lemma bind_ext {A B} (c : M A) (k1 k2 : A -> M B) w :
  (forall a w', k1 a w' = k2 a w') -> bind c k1 w = bind c k2 w.
Proof.
  intros H; unfold bind; destruct (c w) as [[a | e] w'];
    [apply H | reflexivity].
Qed.

Lemma bind_cong_l {A B} (c1 c2 : M A) (k : A -> M B) w :
  c1 w = c2 w -> bind c1 k w = bind c2 k w.
Proof. intros H; unfold bind; rewrite H; reflexivity. Qed.

Lemma try_except_pass_cong (c1 c2 : M unit) e w :
  c1 w = c2 w -> try_except_pass c1 e w = try_except_pass c2 e w.
Proof. intros H; unfold try_except_pass; rewrite H; reflexivity. Qed.

Lemma lift_inv_ok {A} (r : result A) w a w' :
  lift r w = (Ok a, w') -> r = Ok a /\ w' = w.
Proof. unfold lift; intros H; inversion H; subst; split; reflexivity. Qed.

(** ** [np.argmax] on booleans *)

Section Argmax.

Import Np.

Lemma argmax_scan_true l : forall besti i, argmax_scan true besti i l = besti.
Proof.
  induction l as [| b t IH]; intros besti i; simpl.
  - reflexivity.
  - rewrite andb_false_r; apply IH.
Qed.

Lemma argmax_scan_all_false l :
  Forall (fun b => b = false) l ->
  forall besti i, argmax_scan false besti i l = besti.
Proof.
  induction 1 as [| b t Hb _ IH]; intros besti i; simpl.
  - reflexivity.
  - subst b; simpl; apply IH.
Qed.

Lemma argmax_scan_first l :
  forall k besti i,
    nth_error l k = Some true ->
    (forall j, j < k -> nth_error l j = Some false) ->
    argmax_scan false besti i l = i + k.
Proof.
  induction l as [| b t IH]; intros k besti i Hk Hlt.
  - destruct k; discriminate Hk.
  - destruct k as [| k]; simpl in *.
    + inversion Hk; subst b; simpl.
      rewrite argmax_scan_true; lia.
    + assert (Hb : b = false).
      { specialize (Hlt 0 ltac:(lia)); simpl in Hlt; congruence. }
      subst b; simpl.
      rewrite (IH k besti (S i) Hk).
      * lia.
      * intros j Hj; apply (Hlt (S j)); lia.
Qed.

Lemma argmax_first_true l k :
  nth_error l k = Some true ->
  (forall j, j < k -> nth_error l j = Some false) ->
  argmax l = Ok k.
Proof.
  destruct l as [| b t]; intros Hk Hlt.
  - destruct k; discriminate Hk.
  - unfold argmax; destruct k as [| k]; simpl in Hk.
    + inversion Hk; subst b; rewrite argmax_scan_true; reflexivity.
    + assert (Hb : b = false).
      { specialize (Hlt 0 ltac:(lia)); simpl in Hlt; congruence. }
      subst b.
      rewrite (@argmax_scan_first t k 0 1 Hk).
      * reflexivity.
      * intros j Hj; apply (Hlt (S j)); lia.
Qed.

Lemma argmax_all_false b t :
  Forall (fun b => b = false) (b :: t) -> argmax (b :: t) = Ok 0.
Proof.
  intros H; inversion H; subst; unfold argmax.
  rewrite argmax_scan_all_false; [reflexivity | assumption].
Qed.

End Argmax.

(** ** Comparisons of binary64 values *)

Section Comparisons.

Import Binary64.

Lemma SFcompare_swap (a b : float) :
  SFcompare b a = option_map CompOpp (SFcompare a b).
Proof.
  destruct a as [sa | sa | | sa ma ea], b as [sb | sb | | sb mb eb];
    simpl; try reflexivity;
    try (destruct sa; reflexivity);
    try (destruct sb; reflexivity);
    try (destruct sa, sb; reflexivity).
  destruct sa, sb; simpl; try reflexivity;
    rewrite (Z.compare_antisym ea eb);
    destruct (ea ?= eb)%Z; simpl; try reflexivity;
    rewrite ?Pos.compare_cont_antisym; reflexivity.
Qed.

Lemma leb_not_ltb (a b : float) : leb a b = true -> ltb b a = false.
Proof.
  unfold leb, ltb, SFleb, SFltb; rewrite (SFcompare_swap a b).
  destruct (SFcompare a b) as [[ | | ] | ]; simpl; congruence.
Qed.

Lemma ltb_not_leb (a b : float) : ltb b a = true -> leb a b = false.
Proof.
  intros H; destruct (leb a b) eqn:E; [| reflexivity].
  apply leb_not_ltb in E; congruence.
Qed.

Lemma leb_order_key (a b : float) :
  is_nan a = false -> is_nan b = false ->
  (leb a b = true <-> lex_le (order_key a) (order_key b)).
Proof.
  unfold leb, SFleb.
  destruct a as [sa | sa | | sa ma ea], b as [sb | sb | | sb mb eb];
    intros Ha Hb; try discriminate; simpl;
    try (destruct sa); try (destruct sb); simpl;
    try (split; [intros _; lia | reflexivity]);
    try (split; [discriminate | lia]).
  all: change (Pos.compare_cont Eq ?p ?q) with (Pos.compare p q).
  all: destruct (Z.compare_spec ea eb); destruct (Pos.compare_spec ma mb);
    simpl;
    try (split; [intros _; lia | reflexivity]);
    try (split; [discriminate | lia]).
Qed.

Lemma leb_refl (a : float) : is_nan a = false -> leb a a = true.
Proof.
  intros Ha; apply (leb_order_key a a Ha Ha).
  unfold lex_le; destruct (order_key a) as [[c e] m]; lia.
Qed.

Lemma leb_trans (a b c : float) :
  is_nan a = false -> is_nan b = false -> is_nan c = false ->
  leb a b = true -> leb b c = true -> leb a c = true.
Proof.
  intros Ha Hb Hc Hab Hbc.
  apply (leb_order_key a b Ha Hb) in Hab.
  apply (leb_order_key b c Hb Hc) in Hbc.
  apply (leb_order_key a c Ha Hc).
  unfold lex_le in *.
  destruct (order_key a) as [[c1 e1] m1], (order_key b) as [[c2 e2] m2],
    (order_key c) as [[c3 e3] m3]; lia.
Qed.

Lemma leb_total (a b : float) :
  is_nan a = false -> is_nan b = false -> leb a b = true \/ leb b a = true.
Proof.
  intros Ha Hb.
  rewrite (leb_order_key a b Ha Hb), (leb_order_key b a Hb Ha).
  unfold lex_le.
  destruct (order_key a) as [[c1 e1] m1], (order_key b) as [[c2 e2] m2]; lia.
Qed.

End Comparisons.

Lemma within_not_exceeds (x : sample) :
  within_eps x = true -> exceeds_eps x = false.
Proof. unfold within_eps, exceeds_eps; apply leb_not_ltb. Qed.

(** ** Latency trimming (lines 31-34) *)

Lemma nth_error_abs_gt (a : buffer) (e : sample) (i : nat) :
  nth_error (Np.abs_gt a e) i
  = option_map (fun x => Binary64.ltb e (Binary64.abs x)) (nth_error a i).
Proof. unfold Np.abs_gt; apply nth_error_map. Qed.

(** C4.  When the sample at index [k] is the first one whose absolute value
    exceeds [eps = 3/2^15], latency trimming returns the recorded buffer from
    index [k] onward, and that buffer has [k] samples less. *)
Theorem latency_trim_from_first_exceeding
  (rec_samples : buffer) (k : nat) (x : sample) :
  nth_error rec_samples k = Some x ->
  exceeds_eps x = true ->
  (forall j y, j < k -> nth_error rec_samples j = Some y ->
               exceeds_eps y = false) ->
  latency_step true rec_samples = Ok (skipn k rec_samples)
  /\ List.length (skipn k rec_samples) = List.length rec_samples - k.
Proof.
  intros Hk Hx Hbefore; split; [| apply length_skipn].
  unfold latency_step, remove_latency.
  rewrite (@argmax_first_true (Np.abs_gt rec_samples eps) k).
  - reflexivity.
  - rewrite nth_error_abs_gt, Hk; simpl.
    f_equal; exact Hx.
  - intros j Hj.
    rewrite nth_error_abs_gt.
    destruct (nth_error rec_samples j) as [y |] eqn:Ej.
    + simpl; f_equal; exact (Hbefore j y Hj Ej).
    + apply nth_error_None in Ej.
      assert (k < List.length rec_samples)
        by (apply nth_error_Some; congruence).
      lia.
Qed.

(** The theorem at a recording of two silent samples, one at the threshold
    and a first loud one at index 3. *)
Lemma latency_trim_from_first_exceeding_witness :
  let r := [Binary64.zero; Binary64.zero; eps; Binary64.c1_0; Binary64.zero] in
  latency_step true r = Ok [Binary64.c1_0; Binary64.zero]
  /\ List.length (skipn 3 r) = List.length r - 3.
Proof.
  intros r.
  apply (@latency_trim_from_first_exceeding r 3 Binary64.c1_0).
  - reflexivity.
  - reflexivity.
  - intros j y Hj Ej.
    destruct j as [| [| [| j]]]; simpl in Ej; try lia;
      inversion Ej; subst y; reflexivity.
Defined.

(** C5, as amended.  When the recorded buffer is not empty and every
    sample's absolute value is at most [eps], the trim index is 0 and latency
    trimming returns the buffer as it is, without an error. *)
Theorem latency_trim_silent_recording (rec_samples : buffer) :
  rec_samples <> [] ->
  (forall x, In x rec_samples -> within_eps x = true) ->
  Np.argmax (Np.abs_gt rec_samples eps) = Ok 0
  /\ latency_step true rec_samples = Ok rec_samples.
Proof.
  intros Hne Hall.
  assert (Hidx : Np.argmax (Np.abs_gt rec_samples eps) = Ok 0).
  { destruct rec_samples as [| x t]; [congruence |].
    unfold Np.abs_gt; simpl map; apply argmax_all_false.
    change (Forall (fun b => b = false)
              (map (fun y => exceeds_eps y) (x :: t))).
    apply Forall_map, Forall_forall.
    intros y Hy; apply within_not_exceeds, Hall, Hy. }
  split; [exact Hidx |].
  unfold latency_step, remove_latency; rewrite Hidx; reflexivity.
Qed.

Lemma latency_trim_silent_recording_witness :
  let r := [Binary64.zero; eps; Binary64.zero] in
  Np.argmax (Np.abs_gt r eps) = Ok 0 /\ latency_step true r = Ok r.
Proof.
  intros r; apply latency_trim_silent_recording.
  - discriminate.
  - intros x [E | [E | [E | []]]]; subst x; reflexivity.
Defined.

(** The claim C5 as it is worded, for every recorded buffer, fails at the
    empty buffer: every one of its (no) samples is within [eps], and
    [np.argmax] raises [ValueError] on it. *)
Lemma latency_trim_empty_recording_raises :
  (forall x, In x (@nil sample) -> within_eps x = true)
  /\ latency_step true [] = Err ValueError
  /\ ~ (forall rec_samples : buffer,
          (forall x, In x rec_samples -> within_eps x = true) ->
          latency_step true rec_samples = Ok rec_samples).
Proof.
  split; [intros x [] |].
  split; [reflexivity |].
  intros H; specialize (H [] (fun x (F : In x []) => match F with end)).
  discriminate H.
Qed.

(** ** Padding (line 29) *)

(** [round(0.5*fs)] in integer arithmetic: half of [fs], a half going to the
    even neighbour. *)
Lemma round_half (fs : Z) :
  Py.round (0.5 * inject_Z fs)%Q
  = (fs / 2 + (if Z.odd fs && Z.odd (fs / 2) then 1 else 0))%Z.
Proof.
  unfold Py.round.
  assert (Hf : Qfloor (0.5 * inject_Z fs)%Q = (fs / 2)%Z).
  { unfold Qfloor, Qmult, inject_Z; cbn [Qnum Qden].
    change (Z.pos (10 * 1)) with (5 * 2)%Z.
    apply Z.div_mul_cancel_l; lia. }
  rewrite Hf.
  unfold Qcompare, Qminus, Qplus, Qopp, Qmult, inject_Z; cbn [Qnum Qden].
  change (Z.pos (10 * 1)) with 10%Z; change (Z.pos (10 * 1 * 1)) with 10%Z.
  pose proof (Z.div_mod fs 2 ltac:(lia)) as Hdm.
  pose proof (Zmod_odd fs) as Hodd.
  rewrite <- Z.negb_odd.
  destruct (Z.odd fs); simpl andb.
  - replace ((5 * fs * 1 + - (fs / 2) * 10) * 2)%Z with 10%Z by lia.
    simpl; destruct (Z.odd (fs / 2)); simpl; lia.
  - replace ((5 * fs * 1 + - (fs / 2) * 10) * 2)%Z with 0%Z by lia.
    simpl; lia.
Qed.

Lemma round_half_nonneg (fs : Z) :
  (0 <= fs)%Z -> (0 <= Py.round (0.5 * inject_Z fs)%Q)%Z.
Proof.
  intros H; rewrite round_half.
  assert (0 <= fs / 2)%Z by (apply Z.div_pos; lia).
  destruct (Z.odd fs && Z.odd (fs / 2)); lia.
Qed.

Lemma pad_right_ok (a : buffer) (n : Z) :
  (0 <= n)%Z -> Np.pad_right a n = Ok (a ++ repeat Binary64.zero (Z.to_nat n)).
Proof.
  intros H; unfold Np.pad_right.
  destruct (Z.ltb_spec n 0); [lia | reflexivity].
Qed.

Lemma pad_playback_ok (fs : Z) (pb_samples : buffer) :
  (0 <= fs)%Z ->
  pad_playback fs pb_samples
  = Ok (pb_samples
          ++ repeat Binary64.zero (Z.to_nat (Py.round (0.5 * inject_Z fs)%Q))).
Proof. intros H; apply pad_right_ok, round_half_nonneg, H. Qed.

(** ** Normalisation (lines 27-28) *)

Lemma maximum_cases (a b : sample) :
  Binary64.is_nan a = false -> Binary64.is_nan b = false ->
  let m := Np.maximum a b in
  (m = a \/ m = b)
  /\ Binary64.leb a m = true /\ Binary64.leb b m = true.
Proof.
  intros Ha Hb; unfold Np.maximum; rewrite Ha, orb_false_r.
  destruct (Binary64.leb b a) eqn:E.
  - split; [left; reflexivity |].
    split; [apply leb_refl, Ha | exact E].
  - split; [right; reflexivity |].
    split; [| apply leb_refl, Hb].
    destruct (leb_total a b Ha Hb) as [H | H]; [exact H | congruence].
Qed.

Lemma fold_maximum_is_maximum (t : buffer) :
  forall x,
    Forall (fun y => Binary64.is_nan y = false) (x :: t) ->
    let m := fold_left Np.maximum t x in
    Binary64.is_nan m = false
    /\ In m (x :: t)
    /\ forall y, In y (x :: t) -> Binary64.leb y m = true.
Proof.
  induction t as [| y t IH]; intros x Hall; inversion Hall as [| ? ? Hx Ht];
    subst.
  - simpl; split; [exact Hx |]; split; [left; reflexivity |].
    intros y [<- | []]; apply leb_refl, Hx.
  - inversion Ht as [| ? ? Hy Ht']; subst.
    destruct (maximum_cases x y Hx Hy) as (Hcase & Hxm & Hym).
    assert (Hm : Binary64.is_nan (Np.maximum x y) = false)
      by (destruct Hcase as [-> | ->]; assumption).
    destruct (IH (Np.maximum x y) (Forall_cons _ Hm Ht'))
      as (Hnan & Hin & Hle).
    cbn [fold_left]; split; [exact Hnan |]; split.
    + destruct Hin as [Hin | Hin].
      * rewrite <- Hin; destruct Hcase as [-> | ->];
          [left; reflexivity | right; left; reflexivity].
      * right; right; exact Hin.
    + assert (Htop : Binary64.leb (Np.maximum x y)
                       (fold_left Np.maximum t (Np.maximum x y)) = true)
        by (apply Hle; left; reflexivity).
      intros z [Hz | [Hz | Hz]].
      * subst z; exact (leb_trans x _ _ Hx Hm Hnan Hxm Htop).
      * subst z; exact (leb_trans y _ _ Hy Hm Hnan Hym Htop).
      * apply Hle; right; exact Hz.
Qed.

(** On a buffer without NaN, [a.max()] is a sample of the buffer that no
    sample exceeds. *)
Lemma np_max_is_maximum (a : buffer) (m : sample) :
  Forall (fun y => Binary64.is_nan y = false) a ->
  Np.max a = Ok m ->
  In m a /\ forall y, In y a -> Binary64.leb y m = true.
Proof.
  destruct a as [| x t]; intros Hall Hm; [discriminate Hm |].
  inversion Hm; subst m.
  destruct (fold_maximum_is_maximum t x Hall) as (_ & Hin & Hle).
  split; assumption.
Qed.



(** The [float32] buffer [0.1, 0.3]: its first sample is normalised to the
    [float32] 13981013 * 2^-25 = 0.41666665673..., where the quotient taken
    in [float64] is 0.41666665631... *)
Lemma normalise_float32_example :
  let x := Binary32.of_float64
             (Binary64.div (Binary64.of_Z 1) (Binary64.of_Z 10)) in
  let m := Binary32.of_float64
             (Binary64.div (Binary64.of_Z 3) (Binary64.of_Z 10)) in
  exists y,
    normalise_step Nep50 true Float32 [x; m]
    = Ok [S754_finite false 13981013 (-25); y]
    /\ Binary64.div x (Binary64.mul Binary64.c0_8 m)
       = S754_finite false 7505999192537323 (-54).
Proof. cbv zeta; eexists; split; vm_compute; reflexivity. Qed.

(** The two sets of rules differ on [float32] data: the maximum 0.4 of a
    [float32] buffer is normalised to 10485759 * 2^-23 = 1.24999988... by
    NumPy 2, whose divisor is the [float32] product of the [float32]s 0.8
    and 0.4, and to 1.25 by NumPy 1, whose divisor is the [float64] product
    taken to [float32]. *)
Lemma normalise_float32_rules_differ :
  let m := Binary32.of_float64
             (Binary64.div (Binary64.of_Z 2) (Binary64.of_Z 5)) in
  normalise_step Nep50 true Float32 [m] = Ok [S754_finite false 10485759 (-23)]
  /\ normalise_step Legacy true Float32 [m]
     = Ok [S754_finite false 10485760 (-23)].
Proof. cbv zeta; split; vm_compute; reflexivity. Qed.

(** The maximum of zeros is a zero, whatever their signs. *)
Lemma fold_maximum_zeros (t : buffer) :
  Forall (fun y => Binary64.is_zero y = true) t ->
  forall x, Binary64.is_zero x = true ->
            Binary64.is_zero (fold_left Np.maximum t x) = true.
Proof.
  induction 1 as [| y t Hy _ IH]; intros x Hx; simpl.
  - exact Hx.
  - apply IH; unfold Np.maximum.
    destruct (Binary64.leb y x || Binary64.is_nan x); assumption.
Qed.

Lemma div_by_scaled_zero (rules : promotion) (dt : dtype) (x m : sample) :
  Binary64.is_zero x = true -> Binary64.is_zero m = true ->
  Np.divide dt x (Np.scale rules dt Binary64.c0_8 m) = Binary64.nan.
Proof.
  destruct x; try discriminate; destruct m; try discriminate;
    destruct dt, rules; reflexivity.
Qed.

Lemma divide_zeros_by_scaled_zero (rules : promotion) (dt : dtype)
  (a : buffer) (m : sample) :
  Forall (fun y => Binary64.is_zero y = true) a ->
  Binary64.is_zero m = true ->
  Np.divide_scalar dt a (Np.scale rules dt Binary64.c0_8 m)
  = repeat Binary64.nan (List.length a).
Proof.
  intros Hall Hm; unfold Np.divide_scalar.
  induction Hall as [| y l Hy _ IH]; cbn [map List.length repeat].
  - reflexivity.
  - rewrite (div_by_scaled_zero rules dt y m Hy Hm), IH; reflexivity.
Qed.

(** On a non-empty buffer of zeros the divisor [0.8 * max] is a zero and
    every quotient is a NaN; no exception is raised. *)
Lemma normalise_samples_all_zero (rules : promotion) (dt : dtype)
  (pb_samples : buffer) :
  pb_samples <> [] ->
  Forall (fun y => Binary64.is_zero y = true) pb_samples ->
  normalise_samples rules dt pb_samples
  = Ok (repeat Binary64.nan (List.length pb_samples)).
Proof.
  intros Hne Hall.
  destruct pb_samples as [| x t]; [congruence |].
  unfold normalise_samples, Np.max.
  rewrite divide_zeros_by_scaled_zero; [reflexivity | exact Hall |].
  inversion Hall; subst; apply fold_maximum_zeros; assumption.
Qed.

(** C1, evaluated.  The 16-bit buffer [2, -1, 1] has peak 2; its normalised form
    is [1.25, -0.625, 0.625], of peak 1.25, which is above 1.2 and not 0.8. *)
Lemma normalise_peak_is_not_0_8 :
  let pb := [Binary64.of_Z 2; Binary64.of_Z (-1); Binary64.of_Z 1] in
  let c1_25 := Binary64.div (Binary64.of_Z 5) (Binary64.of_Z 4) in
  let c1_2 := Binary64.div (Binary64.of_Z 12) (Binary64.of_Z 10) in
  peak pb = Ok (Binary64.of_Z 2)
  /\ (exists out,
        normalise_step Nep50 true Integer pb = Ok out /\ peak out = Ok c1_25)
  /\ Binary64.ltb c1_2 c1_25 = true
  /\ Binary64.ltb Binary64.c0_8 c1_25 = true.
Proof.
  cbv zeta; split; [vm_compute; reflexivity |].
  split; [eexists; split; vm_compute; reflexivity |].
  split; vm_compute; reflexivity.
Qed.

(** ** Strings *)

Section Strings.

Local Open Scope string_scope.

Lemma substring_0_all (s : string) : substring 0 (String.length s) s = s.
Proof.
  induction s as [| a s IH]; simpl; [reflexivity | rewrite IH; reflexivity].
Qed.

Lemma substring_0_0 (s : string) : substring 0 0 s = "".
Proof. destruct s; reflexivity. Qed.

Lemma substring_append_skip (p x : string) :
  substring (String.length p) (String.length x) (p ++ x) = x.
Proof.
  induction p as [| a p IH]; simpl.
  - apply substring_0_all.
  - exact IH.
Qed.

Lemma substring_split (s : string) :
  forall i, i <= String.length s ->
            s = substring 0 i s ++ substring i (String.length s - i) s.
Proof.
  induction s as [| a s IH]; intros i Hi; simpl in *.
  - destruct i; [reflexivity | lia].
  - destruct i as [| i]; simpl.
    + rewrite substring_0_all; reflexivity.
    + rewrite <- (IH i) by lia; reflexivity.
Qed.

Lemma length_append (s t : string) :
  String.length (s ++ t) = String.length s + String.length t.
Proof. induction s; simpl; congruence. Qed.

Lemma length_substring_le (s : string) :
  forall i n, String.length (substring i n s) <= n.
Proof.
  induction s as [| a s IH]; intros i n.
  - destruct i, n; simpl; lia.
  - destruct i as [| i]; simpl.
    + destruct n as [| n]; simpl; [lia |].
      specialize (IH 0 n); lia.
    + apply IH.
Qed.

Lemma length_substring_0_le (s : string) :
  forall n, String.length (substring 0 n s) <= String.length s.
Proof.
  induction s as [| a s IH]; intros n.
  - destruct n; simpl; lia.
  - destruct n as [| n]; simpl; [lia |].
    specialize (IH n); lia.
Qed.

Lemma length_rstrip_le (s : string) (c : ascii) :
  String.length (Str.rstrip s c) <= String.length s.
Proof.
  induction s as [| a s IH]; simpl; [lia |].
  destruct (negb (Str.nonempty (Str.rstrip s c)) && Ascii.eqb a c);
    simpl; lia.
Qed.

(** [s.endswith(x)] holds exactly when [s] is some text followed by [x]. *)
Lemma endswith_spec (s x : string) :
  Str.endswith s x = true <-> exists p, s = p ++ x.
Proof.
  unfold Str.endswith; split.
  - intros H; apply andb_true_iff in H as [Hle Heq].
    apply Nat.leb_le in Hle; apply String.eqb_eq in Heq.
    exists (substring 0 (String.length s - String.length x) s).
    pose proof (substring_split s (String.length s - String.length x)
                  ltac:(lia)) as Hs.
    replace (String.length s - (String.length s - String.length x))
      with (String.length x) in Hs by lia.
    rewrite Heq in Hs; exact Hs.
  - intros [p ->]; rewrite length_append.
    apply andb_true_iff; split.
    + apply Nat.leb_le; lia.
    + apply String.eqb_eq.
      replace (String.length p + String.length x - String.length x)
        with (String.length p) by lia.
      apply substring_append_skip.
Qed.

Lemma is_wav_spec (f : string) :
  is_wav f = true <-> exists p, f = p ++ ".wav" \/ f = p ++ ".WAV".
Proof.
  unfold is_wav; rewrite orb_true_iff, !endswith_spec; split.
  - intros [[p H] | [p H]]; exists p; [right | left]; exact H.
  - intros [p [H | H]]; [right | left]; exists p; exact H.
Qed.

End Strings.

(** ** File discovery (lines 58-75) *)

Section Discovery.

Local Open Scope string_scope.

Lemma walk_tree_sound (t : dirtree) :
  forall top root dirs filenames f,
    In (root, dirs, filenames) (walk_tree top t) ->
    In f filenames ->
    file_in top t root f.
Proof.
  induction t as [filenames0 subdirs IH] using dirtree_rect_subdirs.
  intros top root dirs filenames f Hin Hf; simpl in Hin.
  destruct Hin as [Heq | Hin].
  - inversion Heq; subst; apply file_here; exact Hf.
  - apply in_flat_map in Hin as [[d t'] [Hd Hin]].
    rewrite Forall_forall in IH.
    apply (@file_below top filenames0 subdirs d t' root f Hd).
    exact (IH (d, t') Hd _ _ _ _ _ Hin Hf).
Qed.

Lemma walk_tree_complete top t root f :
  file_in top t root f ->
  exists dirs filenames,
    In (root, dirs, filenames) (walk_tree top t) /\ In f filenames.
Proof.
  induction 1 as [top filenames subdirs f Hf
                 | top filenames subdirs d t root f Hd _ IH].
  - exists (map fst subdirs), filenames; split; [left; reflexivity | exact Hf].
  - destruct IH as (dirs & fl & Hin & Hf).
    exists dirs, fl; split; [| exact Hf].
    simpl; right; apply in_flat_map.
    exists (d, t); split; [exact Hd | exact Hin].
Qed.

(** C7.  The pairs of [get_wavfiles] are exactly the pairs of the files,
    at any depth under the input root, whose name ends in [.wav] or in
    [.WAV]: each such file has its pair, and each pair is the pair of such
    a file. *)
Theorem get_wavfiles_exactly_the_wav_files
  (scan : string -> option dirtree) (input_dir output_dir : string)
  (t : dirtree) :
  scan input_dir = Some t ->
  forall pair,
    In pair (get_wavfiles scan input_dir output_dir)
    <-> exists root f,
          file_in input_dir t root f
          /\ (exists p, f = p ++ ".wav" \/ f = p ++ ".WAV")
          /\ pair = wavfile_pair input_dir output_dir root f.
Proof.
  intros Hscan pair; unfold get_wavfiles, os_walk; rewrite Hscan; split.
  - intros H; apply in_flat_map in H as [[[root dirs] filenames] [Hw H]].
    apply in_map_iff in H as [f [Hp Hf]].
    apply filter_In in Hf as [Hf Hwav].
    exists root, f; split; [| split].
    + exact (walk_tree_sound _ _ _ _ _ _ Hw Hf).
    + apply is_wav_spec; exact Hwav.
    + symmetry; exact Hp.
  - intros (root & f & Hfile & Hwav & ->).
    apply walk_tree_complete in Hfile as (dirs & filenames & Hw & Hf).
    apply in_flat_map; exists (root, dirs, filenames); split; [exact Hw |].
    apply in_map, filter_In; split; [exact Hf |].
    apply is_wav_spec; exact Hwav.
Qed.

(** A path that names no directory yields no pair. *)
Lemma get_wavfiles_no_directory scan input_dir output_dir :
  scan input_dir = None -> get_wavfiles scan input_dir output_dir = [].
Proof. intros H; unfold get_wavfiles, os_walk; rewrite H; reflexivity. Qed.

(** The example of the specification: [readme.txt] and [n.Wav] give no
    pair. *)
Lemma get_wavfiles_example :
  get_wavfiles example_scan "input_db_small" "output_db_small"
  = [("input_db_small/a/x.wav", "output_db_small/a/x.wav");
     ("input_db_small/b/y.WAV", "output_db_small/b/y.WAV")].
Proof. vm_compute; reflexivity. Qed.

Lemma get_wavfiles_exactly_the_wav_files_witness :
  example_scan "input_db_small"
  = Some (Dir ["readme.txt"]
            [("a", Dir ["x.wav"; "n.Wav"] []); ("b", Dir ["y.WAV"] [])])
  /\ forall pair,
      In pair (get_wavfiles example_scan "input_db_small" "output_db_small")
      <-> exists root f,
            file_in "input_db_small"
              (Dir ["readme.txt"]
                 [("a", Dir ["x.wav"; "n.Wav"] []); ("b", Dir ["y.WAV"] [])])
              root f
            /\ (exists p, f = p ++ ".wav" \/ f = p ++ ".WAV")
            /\ pair = wavfile_pair "input_db_small" "output_db_small" root f.
Proof.
  split; [reflexivity |].
  apply (@get_wavfiles_exactly_the_wav_files example_scan
           "input_db_small" "output_db_small").
  reflexivity.
Defined.

Lemma replace_scan_absent (old new s : string) :
  occurs old s = false -> Str.replace_scan old new 0 s = s.
Proof.
  induction s as [| a s IH]; intros H; [reflexivity |].
  cbn [occurs] in H; apply orb_false_iff in H as [Hp Ho].
  cbn [Str.replace_scan]; rewrite Hp, (IH Ho); reflexivity.
Qed.

Lemma replace_scan_skip (old new u s : string) :
  Str.replace_scan old new (String.length u) (u ++ s)
  = Str.replace_scan old new 0 s.
Proof.
  induction u as [| a u IH]; [reflexivity |].
  simpl; exact IH.
Qed.

Lemma prefix_append (p s : string) : String.prefix p (p ++ s) = true.
Proof.
  induction p as [| a p IH]; simpl.
  - destruct s; reflexivity.
  - destruct (ascii_dec a a); [exact IH | congruence].
Qed.

(** Where the text of the input root does not come back after the leading
    occurrence, [str.replace] and the replacement of the leading root
    agree. *)
Lemma replace_leading_only (input_dir output_dir rest : string) :
  Str.nonempty input_dir = true ->
  occurs input_dir rest = false ->
  Str.replace (input_dir ++ rest) input_dir output_dir = output_dir ++ rest
  /\ replace_leading_root (input_dir ++ rest) input_dir output_dir
     = output_dir ++ rest.
Proof.
  intros Hne Hocc; split.
  - unfold Str.replace; rewrite Hne.
    destruct input_dir as [| a u]; [discriminate |].
    change ((String a u) ++ rest) with (String a (u ++ rest)).
    cbn [Str.replace_scan].
    change (String a (u ++ rest)) with ((String a u) ++ rest).
    rewrite prefix_append.
    replace (String.length (String a u) - 1) with (String.length u)
      by (cbn [String.length]; lia).
    rewrite replace_scan_skip, (replace_scan_absent _ _ _ Hocc); reflexivity.
  - unfold replace_leading_root; f_equal.
    rewrite length_append.
    replace (String.length input_dir + String.length rest
             - String.length input_dir) with (String.length rest) by lia.
    apply substring_append_skip.
Qed.

(** C2, evaluated.  With input root [in] and output root [out], the file
    [in/violin/a.wav] is paired with [out/violout/a.wav]: [str.replace]
    rewrites the [in] inside [violin] too, where replacing the leading
    root alone gives [out/violin/a.wav]. *)
Lemma get_wavfiles_replaces_inner_occurrences :
  get_wavfiles violin_scan "in" "out"
  = [("in/violin/a.wav", "out/violout/a.wav")]
  /\ OsPath.join (replace_leading_root "in/violin" "in" "out") "a.wav"
     = "out/violin/a.wav"
  /\ file_in "in" (Dir [] [("violin", Dir ["a.wav"] [])]) "in/violin" "a.wav".
Proof.
  split; [vm_compute; reflexivity |].
  split; [vm_compute; reflexivity |].
  eapply file_below; [left; reflexivity |].
  apply file_here; left; reflexivity.
Qed.

(** With input root [a] and output root [b], the files [a/ab/x.wav] and
    [a/bb/x.wav] of two directories are paired with one output path. *)
Lemma get_wavfiles_merges_directories :
  get_wavfiles twin_scan "a" "b"
  = [("a/ab/x.wav", "b/bb/x.wav"); ("a/bb/x.wav", "b/bb/x.wav")].
Proof. vm_compute; reflexivity. Qed.

End Discovery.

(** ** The [os] model *)

Section OsFacts.

Local Open Scope string_scope.

Lemma isdir_empty (w : world) : Os.isdir "" w = (Ok false, w).
Proof. reflexivity. Qed.

Lemma mkdir_empty (w : world) : Os.mkdir "" w = (Err FileNotFoundError, w).
Proof. reflexivity. Qed.

(** [os.makedirs('')] raises: there is no head to create, and [mkdir('')]
    fails with [ENOENT]. *)
Lemma makedirs_empty (w : world) :
  Os.makedirs "" w = (Err FileNotFoundError, w).
Proof. reflexivity. Qed.

Lemma rfind_from_absent (c : ascii) (s : string) :
  ~ In c (list_ascii_of_string s) ->
  forall i last, Str.rfind_from c s i last = last.
Proof.
  induction s as [| a s IH]; intros Hc i last; simpl.
  - reflexivity.
  - simpl in Hc.
    destruct (Ascii.eqb_spec a c) as [-> | Hac].
    + exfalso; apply Hc; left; reflexivity.
    + apply IH; intros Hin; apply Hc; right; exact Hin.
Qed.

(** A path without a slash, a bare file name, has the empty directory
    component. *)
Lemma dirname_bare (p : string) :
  ~ In "/"%char (list_ascii_of_string p) -> OsPath.dirname p = "".
Proof.
  intros H; unfold OsPath.dirname, Str.rfind, OsPath.sep.
  rewrite (rfind_from_absent "/" p H); simpl Z.to_nat.
  rewrite substring_0_0; reflexivity.
Qed.

Lemma split_lengths (p : string) :
  String.length (fst (OsPath.split p)) + String.length (snd (OsPath.split p))
  <= String.length p.
Proof.
  unfold OsPath.split; cbn [fst snd].
  set (i := Z.to_nat (Str.rfind p OsPath.sep + 1)).
  pose proof (length_substring_le p i (String.length p - i)) as Ht.
  pose proof (length_substring_le p 0 i) as Hh.
  pose proof (length_substring_0_le p i) as Hh'.
  pose proof (length_rstrip_le (substring 0 i p) OsPath.sep) as Hr.
  destruct (Str.nonempty (substring 0 i p)
            && negb (Str.all_char (substring 0 i p) OsPath.sep)); lia.
Qed.

Lemma nonempty_length (s : string) :
  Str.nonempty s = true -> 1 <= String.length s.
Proof. destruct s; simpl; [discriminate | lia]. Qed.

(** The fuel of [Os.makedirs] is enough: with at least the length of the
    path, the amount of fuel changes nothing, and [RecursionError] is not
    raised for lack of it. *)
Lemma makedirs_fuel_stable (n : nat) :
  forall m name w,
    String.length name <= n -> String.length name <= m ->
    Os.makedirs_fuel n name w = Os.makedirs_fuel m name w.
Proof.
  induction n as [| n IH]; intros m name w Hn Hm.
  - destruct name; [destruct m; reflexivity | simpl in Hn; lia].
  - destruct m as [| m].
    + destruct name; [reflexivity | simpl in Hm; lia].
    + cbn [Os.makedirs_fuel].
      pose proof (split_lengths name) as Hs.
      destruct (OsPath.split name) as [head tail] eqn:Es.
      cbn [fst snd] in Hs.
      pose proof (split_lengths head) as Hs'.
      destruct (OsPath.split head) as [head' tail'] eqn:Es'.
      cbn [fst snd] in Hs'.
      assert (Hrec : forall h t w0,
                 Str.nonempty t = true ->
                 String.length h + String.length t <= String.length name ->
                 Os.makedirs_fuel n h w0 = Os.makedirs_fuel m h w0).
      { intros h t w0 Ht Hl; apply nonempty_length in Ht.
        apply IH; lia. }
      destruct (Str.nonempty tail) eqn:Et; cbn [negb].
      * apply bind_ext; intros there w1.
        destruct (Str.nonempty head && Str.nonempty tail && negb there);
          [| reflexivity].
        apply bind_cong_l, try_except_pass_cong.
        apply (Hrec head tail w1 Et); lia.
      * apply bind_ext; intros there w1.
        destruct (Str.nonempty head' && Str.nonempty tail' && negb there)
          eqn:Ec; [| reflexivity].
        apply andb_true_iff in Ec as [Ec _].
        apply andb_true_iff in Ec as [_ Et'].
        apply bind_cong_l, try_except_pass_cong.
        apply (Hrec head' tail' w1 Et'); lia.
Qed.

Lemma makedirs_fuel_enough (n : nat) (name : string) (w : world) :
  String.length name <= n -> Os.makedirs_fuel n name w = Os.makedirs name w.
Proof. intros H; apply makedirs_fuel_stable; [exact H | lia]. Qed.

End OsFacts.

(** ** [play_and_rec] (lines 15-43) *)

Section Pipeline.

Local Open Scope string_scope.
Local Open Scope py_scope.

Variable rules : promotion.
Variable sd_playrec : buffer -> Z -> result buffer.

Lemma wavfile_read_world (fname : string) (w : world) :
  exists r, wavfile_read fname w = (r, w).
Proof.
  unfold wavfile_read; destruct (Os.lookup fname (w_files w));
    eexists; reflexivity.
Qed.

Lemma play_and_rec_after_normalise
  pb_wav_fname rec_wav_fname normalise rm_latency show_plots w fs dt pb0 pb :
  wavfile_read pb_wav_fname w = (Ok (fs, dt, pb0), w) ->
  normalise_step rules normalise dt pb0 = Ok pb ->
  play_and_rec rules sd_playrec pb_wav_fname rec_wav_fname
    normalise rm_latency show_plots w
  = after_normalise sd_playrec rec_wav_fname rm_latency show_plots fs pb w.
Proof.
  intros Hread Hnorm; unfold play_and_rec.
  erewrite bind_ok by exact Hread; cbn beta iota.
  unfold lift at 1; rewrite Hnorm.
  reflexivity.
Qed.

(** The write step with an empty directory component: [isdir('')] is
    false, [makedirs('')] raises, and [write] is not reached. *)
Lemma write_output_bare rec_wav_fname fs rec_samples w :
  OsPath.dirname rec_wav_fname = "" ->
  write_output rec_wav_fname fs rec_samples w = (Err FileNotFoundError, w).
Proof. intros H; unfold write_output; rewrite H; reflexivity. Qed.


(** C8, as amended.  When the file read is a non-empty buffer of zeros and
    normalisation is enabled, normalisation raises nothing and gives a
    buffer of NaNs, one per sample, and [play_and_rec] goes on with that
    buffer: it is padded, played, plotted and returned. *)
Theorem silence_normalises_to_nan
  pb_wav_fname rec_wav_fname rm_latency show_plots w
  (fs : Z) (dt : dtype) (pb_samples : buffer) :
  wavfile_read pb_wav_fname w = (Ok (fs, dt, pb_samples), w) ->
  pb_samples <> [] ->
  Forall (fun x => Binary64.is_zero x = true) pb_samples ->
  let nans := repeat Binary64.nan (List.length pb_samples) in
  normalise_step rules true dt pb_samples = Ok nans
  /\ Forall (fun x => Binary64.is_finite x = false) nans
  /\ play_and_rec rules sd_playrec pb_wav_fname rec_wav_fname
       true rm_latency show_plots w
     = after_normalise sd_playrec rec_wav_fname rm_latency show_plots
         fs nans w.
Proof.
  intros Hread Hne Hzero nans.
  assert (Hnorm : normalise_step rules true dt pb_samples = Ok nans)
    by (apply normalise_samples_all_zero; assumption).
  split; [exact Hnorm |].
  split; [apply Forall_forall; intros x Hx;
          apply repeat_spec in Hx; subst x; reflexivity |].
  exact (play_and_rec_after_normalise _ rec_wav_fname true
           rm_latency show_plots _ _ _ _ _ Hread Hnorm).
Qed.

(** C9.  When the directory component of the output path is empty, the
    write step raises [FileNotFoundError] from [os.makedirs('')] and
    leaves the world as it was; [play_and_rec] then never returns, writes
    no file, and raises that error once a recording has been made. *)
Theorem bare_output_name_is_not_written
  pb_wav_fname rec_wav_fname normalise rm_latency show_plots w :
  OsPath.dirname rec_wav_fname = "" ->
  (forall fs rec_samples,
      write_output rec_wav_fname fs rec_samples w
      = (Err FileNotFoundError, w))
  /\ (exists e,
        play_and_rec rules sd_playrec pb_wav_fname rec_wav_fname
          normalise rm_latency show_plots w = (Err e, w))
  /\ (forall fs dt pb0 pb_samples padded raw rec_samples,
        wavfile_read pb_wav_fname w = (Ok (fs, dt, pb0), w) ->
        normalise_step rules normalise dt pb0 = Ok pb_samples ->
        pad_playback fs pb_samples = Ok padded ->
        sd_playrec padded fs = Ok raw ->
        latency_step rm_latency raw = Ok rec_samples ->
        play_and_rec rules sd_playrec pb_wav_fname rec_wav_fname
          normalise rm_latency show_plots w = (Err FileNotFoundError, w)).
Proof.
  intros Hdir.
  split; [intros fs rec_samples; apply write_output_bare, Hdir |].
  split.
  - unfold play_and_rec.
    destruct (wavfile_read_world pb_wav_fname w)
      as [[[[fs dt] pb0] | e] Hread].
    + erewrite bind_ok by exact Hread; cbn beta iota.
      unfold bind at 1, lift at 1.
      destruct (normalise_step rules normalise dt pb0) as [pb |e]; [| eauto].
      unfold bind at 1, lift at 1.
      destruct (pad_playback fs pb) as [padded | e]; [| eauto].
      unfold bind at 1, lift at 1.
      destruct (sd_playrec padded fs) as [raw | e]; [| eauto].
      unfold bind at 1, lift at 1.
      destruct (latency_step rm_latency raw) as [rec_samples | e]; [| eauto].
      erewrite bind_err by (apply write_output_bare, Hdir); eauto.
    + erewrite bind_err by exact Hread; eauto.
  - intros fs dt pb0 pb_samples padded raw rec_samples
      Hread Hnorm Hpad Hdev Htrim.
    rewrite (play_and_rec_after_normalise _ rec_wav_fname _
               rm_latency show_plots _ _ _ _ _ Hread Hnorm).
    unfold after_normalise, lift.
    unfold bind at 1; rewrite Hpad.
    unfold bind at 1; rewrite Hdev.
    unfold bind at 1; rewrite Htrim.
    erewrite bind_err by (apply write_output_bare, Hdir); reflexivity.
Qed.

(** C10.  When [play_and_rec] returns, it returns three values: the
    recorded samples after the optional trim, the playback samples after
    the optional normalisation and before the padding, and the sampling
    rate read from the input file. *)
Theorem play_and_rec_returns
  pb_wav_fname rec_wav_fname normalise rm_latency show_plots w
  (r p : buffer) (f : Z) (w' : world) :
  play_and_rec rules sd_playrec pb_wav_fname rec_wav_fname
    normalise rm_latency show_plots w = (Ok (r, p, f), w') ->
  exists dt pb0 padded raw,
    wavfile_read pb_wav_fname w = (Ok (f, dt, pb0), w)
    /\ normalise_step rules normalise dt pb0 = Ok p
    /\ pad_playback f p = Ok padded
    /\ sd_playrec padded f = Ok raw
    /\ latency_step rm_latency raw = Ok r.
Proof.
  unfold play_and_rec; intros H.
  apply bind_inv_ok in H as ([[fs dt] pb0] & w1 & Hread & H).
  destruct (wavfile_read_world pb_wav_fname w) as [x Hx].
  rewrite Hx in Hread; inversion Hread; subst x w1; clear Hread.
  apply bind_inv_ok in H as (pb & w2 & Hnorm & H).
  apply lift_inv_ok in Hnorm as [Hnorm ->].
  apply bind_inv_ok in H as (padded & w3 & Hpad & H).
  apply lift_inv_ok in Hpad as [Hpad ->].
  apply bind_inv_ok in H as (raw & w4 & Hdev & H).
  apply lift_inv_ok in Hdev as [Hdev ->].
  apply bind_inv_ok in H as (rec_samples & w5 & Htrim & H).
  apply lift_inv_ok in Htrim as [Htrim ->].
  apply bind_inv_ok in H as ([] & w6 & _ & H).
  apply bind_inv_ok in H as ([] & w7 & _ & H).
  inversion H; subst.
  exists dt, pb0, padded, raw; repeat split; assumption.
Qed.

End Pipeline.

(** ** The theorems at the example world *)

Section Examples.

Local Open Scope string_scope.
Local Open Scope py_scope.

(** Python's [round] at some sampling rates: a half goes to the even
    integer. *)
Lemma round_half_examples :
  Py.round (0.5 * inject_Z 44100)%Q = 22050%Z
  /\ Py.round (0.5 * inject_Z 11025)%Q = 5512%Z
  /\ Py.round (0.5 * inject_Z 3)%Q = 2%Z
  /\ Py.round (0.5 * inject_Z 1)%Q = 0%Z.
Proof. repeat split; vm_compute; reflexivity. Qed.


(** C8 at [in/silence.wav]: two zeros become two NaNs. *)
Lemma silence_normalises_to_nan_witness :
  normalise_step Nep50 true Integer [Binary64.zero; Binary64.zero]
  = Ok [Binary64.nan; Binary64.nan]
  /\ Forall (fun x => Binary64.is_finite x = false)
       [Binary64.nan; Binary64.nan]
  /\ play_and_rec Nep50 (loopback 2) "in/silence.wav" "out/silence.wav"
       true true false studio
     = after_normalise (loopback 2) "out/silence.wav" true false 8
         [Binary64.nan; Binary64.nan] studio.
Proof.
  apply (@silence_normalises_to_nan Nep50 (loopback 2)
           "in/silence.wav" "out/silence.wav" true false studio 8
           Integer [Binary64.zero; Binary64.zero]).
  - reflexivity.
  - discriminate.
  - repeat constructor.
Defined.

(** The claim C8 as it is worded covers the empty buffer, all of whose
    (no) samples are zero: there [max()] raises [ValueError] and nothing
    is divided. *)
Lemma empty_buffer_normalisation_raises :
  Forall (fun x => Binary64.is_zero x = true) (@nil sample)
  /\ normalise_step Nep50 true Integer [] = Err ValueError
  /\ ~ (forall (rules : promotion) (dt : dtype) (pb_samples : buffer),
          Forall (fun x => Binary64.is_zero x = true) pb_samples ->
          exists out,
            normalise_step rules true dt pb_samples = Ok out
            /\ Forall (fun x => Binary64.is_finite x = false) out).
Proof.
  split; [constructor |].
  split; [reflexivity |].
  intros H; destruct (H Nep50 Integer [] (Forall_nil _)) as [out [Hout _]].
  discriminate Hout.
Qed.

(** C9 at the bare name [tone.wav]. *)
Lemma bare_output_name_is_not_written_witness :
  (forall fs rec_samples,
      write_output "tone.wav" fs rec_samples studio
      = (Err FileNotFoundError, studio))
  /\ (exists e,
        play_and_rec Nep50 (loopback 2) "in/tone.wav" "tone.wav"
          true true true studio = (Err e, studio))
  /\ (forall fs dt pb0 pb_samples padded raw rec_samples,
        wavfile_read "in/tone.wav" studio = (Ok (fs, dt, pb0), studio) ->
        normalise_step Nep50 true dt pb0 = Ok pb_samples ->
        pad_playback fs pb_samples = Ok padded ->
        loopback 2 padded fs = Ok raw ->
        latency_step true raw = Ok rec_samples ->
        play_and_rec Nep50 (loopback 2) "in/tone.wav" "tone.wav"
          true true true studio = (Err FileNotFoundError, studio)).
Proof.
  apply (@bare_output_name_is_not_written Nep50 (loopback 2)
           "in/tone.wav" "tone.wav" true true true studio).
  reflexivity.
Defined.

(** C10 at [in/tone.wav], recorded into [out/tone.wav] through a loopback
    of two samples of latency. *)
Lemma play_and_rec_returns_witness :
  exists r p f w',
    play_and_rec Nep50 (loopback 2) "in/tone.wav" "out/tone.wav"
      true true true studio = (Ok (r, p, f), w')
    /\ exists dt pb0 padded raw,
         wavfile_read "in/tone.wav" studio = (Ok (f, dt, pb0), studio)
         /\ normalise_step Nep50 true dt pb0 = Ok p
         /\ pad_playback f p = Ok padded
         /\ loopback 2 padded f = Ok raw
         /\ latency_step true raw = Ok r.
Proof.
  assert (E : play_and_rec Nep50 (loopback 2) "in/tone.wav" "out/tone.wav"
                true true true studio
              = (Ok (Np.slice_from
                       (firstn 7
                          (repeat Binary64.zero 2
                             ++ [Binary64.div (Binary64.of_Z 5)
                                   (Binary64.of_Z 4);
                                 Binary64.div (Binary64.of_Z (-5))
                                   (Binary64.of_Z 8);
                                 Binary64.div (Binary64.of_Z 5)
                                   (Binary64.of_Z 8)]
                             ++ repeat Binary64.zero 4)%list) 2,
                     [Binary64.div (Binary64.of_Z 5) (Binary64.of_Z 4);
                      Binary64.div (Binary64.of_Z (-5)) (Binary64.of_Z 8);
                      Binary64.div (Binary64.of_Z 5) (Binary64.of_Z 8)],
                     8%Z),
                 snd (play_and_rec Nep50 (loopback 2)
                        "in/tone.wav" "out/tone.wav"
                        true true true studio)))
    by (vm_compute; reflexivity).
  eexists _, _, _, _; split; [exact E |].
  exact (@play_and_rec_returns Nep50 (loopback 2) _ _ _ _ _ _ _ _ _ _ E).
Defined.

(** A device error ends [play_and_rec] before anything is written. *)
Lemma busy_device_writes_nothing :
  play_and_rec Nep50 busy_device "in/tone.wav" "out/tone.wav"
    true true true studio
  = (Err PortAudioError, studio).
Proof. vm_compute; reflexivity. Qed.

End Examples.

(** * More of the program *)

(** ** What the [os] calls and the codec do to the world *)

Section Effects.

Local Open Scope string_scope.
Local Open Scope py_scope.

Lemma grows_refl (w : world) : grows w w.
Proof. repeat split; apply incl_refl. Qed.

Lemma grows_trans (w1 w2 w3 : world) :
  grows w1 w2 -> grows w2 w3 -> grows w1 w3.
Proof.
  intros (Hf & Hg & Hd) (Hf' & Hg' & Hd'); repeat split.
  - congruence.
  - congruence.
  - eapply incl_tran; eassumption.
Qed.

Lemma exists_reads (p : string) (w : world) :
  exists b, Os.exists_ p w = (Ok b, w).
Proof. eexists; reflexivity. Qed.

Lemma isfile_reads (p : string) (w : world) :
  exists b, Os.isfile p w = (Ok b, w).
Proof. eexists; reflexivity. Qed.

Lemma below_file_reads (p : string) (w : world) :
  exists b, Os.below_file p w = (Ok b, w).
Proof. eexists; reflexivity. Qed.

Lemma isdir_reads (p : string) (w : world) :
  Os.isdir p w = (Ok (Os.dir_in p (w_dirs w)), w).
Proof. reflexivity. Qed.

Lemma dir_in_nonempty (p : string) (dirs : list string) :
  Os.dir_in p dirs = true -> Str.nonempty p = true.
Proof. unfold Os.dir_in; intros H; apply andb_true_iff in H; apply H. Qed.

Lemma parent_exists_reads (p : string) (w : world) :
  Os.parent_exists p w
  = (Ok (negb (Str.nonempty (OsPath.dirname p))
         || Os.dir_in (OsPath.dirname p) (w_dirs w)), w).
Proof.
  unfold Os.parent_exists, Os.isdir, ret.
  destruct (Str.nonempty (OsPath.dirname p)); reflexivity.
Qed.

Lemma mkdir_effect (name : string) (w : world) :
  (Os.mkdir name w
   = (Ok tt, mkWorld (Os.key name :: w_dirs w) (w_files w) (w_figures w)))
  \/ exists e, Os.mkdir name w = (Err e, w).
Proof.
  unfold Os.mkdir.
  destruct (Str.nonempty name); cbn [negb]; [| right; eexists; reflexivity].
  destruct (exists_reads (Os.key name) w) as [taken Ht].
  erewrite bind_ok by exact Ht.
  destruct taken; [right; eexists; reflexivity |].
  destruct (below_file_reads (Os.key name) w) as [blocked Hb].
  erewrite bind_ok by exact Hb.
  destruct blocked; [right; eexists; reflexivity |].
  erewrite bind_ok by apply parent_exists_reads.
  destruct (negb _ || _); [left | right; eexists]; reflexivity.
Qed.

Lemma mkdir_grows (name : string) (w : world) :
  grows w (snd (Os.mkdir name w)).
Proof.
  destruct (mkdir_effect name w) as [H | [e H]]; rewrite H; cbn [snd].
  - repeat split; cbn; apply incl_tl, incl_refl.
  - apply grows_refl.
Qed.

Lemma makedirs_fuel_grows (n : nat) :
  forall name w, grows w (snd (Os.makedirs_fuel n name w)).
Proof.
  induction n as [| n IH]; intros name w; cbn [Os.makedirs_fuel];
    destruct (OsPath.split name) as [head tail];
    destruct (if negb (Str.nonempty tail) then OsPath.split head
              else (head, tail)) as [head' tail'];
    destruct (exists_reads head' w) as [there Ht];
    (erewrite bind_ok by exact Ht);
    destruct (Str.nonempty head' && Str.nonempty tail' && negb there);
    try apply mkdir_grows.
  - apply grows_refl.
  - unfold bind, try_except_pass.
    specialize (IH head' w).
    destruct (Os.makedirs_fuel n head' w) as [[[] | e] w1]; cbn [snd] in IH.
    + destruct (tail' =? ".").
      * exact IH.
      * exact (grows_trans _ _ _ IH (mkdir_grows name w1)).
    + destruct e; try exact IH.
      destruct (tail' =? ".").
      * exact IH.
      * exact (grows_trans _ _ _ IH (mkdir_grows name w1)).
Qed.

(** What [write] does: it stores the array under the path, in a directory
    that exists, or it raises and changes nothing. *)
Lemma wavfile_write_effect (fname : string) (fs : Z) (dt : dtype)
  (data : buffer) (w : world) :
  (wavfile_write fname fs dt data w
   = (Ok tt,
      mkWorld (w_dirs w) ((fname, mkWav fs dt data) :: w_files w)
        (w_figures w))
   /\ negb (Str.nonempty (OsPath.dirname fname))
      || Os.dir_in (OsPath.dirname fname) (w_dirs w) = true)
  \/ exists e, wavfile_write fname fs dt data w = (Err e, w).
Proof.
  unfold wavfile_write.
  destruct (Str.nonempty fname) eqn:En; cbn [negb];
    [| right; eexists; reflexivity].
  destruct (Str.endswith fname "/").
  - right.
    destruct (below_file_reads (Os.key fname) w) as [b Hb].
    erewrite bind_ok by exact Hb.
    destruct b; [eexists; reflexivity |].
    erewrite bind_ok by apply parent_exists_reads.
    destruct (negb _ || _); cbn [negb]; [| eexists; reflexivity].
    destruct (isfile_reads (Os.key fname) w) as [f Hf].
    erewrite bind_ok by exact Hf.
    destruct f; eexists; reflexivity.
  - destruct (below_file_reads fname w) as [b Hb].
    erewrite bind_ok by exact Hb.
    destruct b; [right; eexists; reflexivity |].
    erewrite bind_ok by apply parent_exists_reads.
    destruct (negb _ || _) eqn:Ep; cbn [negb];
      [| right; eexists; reflexivity].
    erewrite bind_ok by apply isdir_reads.
    destruct (Os.dir_in fname (w_dirs w)); [right; eexists; reflexivity |].
    left; split; reflexivity.
Qed.

Lemma lookup_head (p : string) (f : wav) (l : list (string * wav)) :
  Os.lookup p ((p, f) :: l) = Some f.
Proof. unfold Os.lookup; cbn; rewrite String.eqb_refl; reflexivity. Qed.

Lemma lookup_kept (p q : string) (f : wav) (l : list (string * wav)) :
  (exists g, Os.lookup p l = Some g) ->
  exists g, Os.lookup p ((q, f) :: l) = Some g.
Proof.
  intros [g Hg]; unfold Os.lookup in *; cbn.
  destruct (p =? q); [exists f; reflexivity | exists g; exact Hg].
Qed.

End Effects.

Section PipelineEffects.

Local Open Scope string_scope.
Local Open Scope py_scope.

Variable rules : promotion.
Variable sd_playrec : buffer -> Z -> result buffer.

(** The write step either fails, having added directories at most, or
    stores the file in a directory that then exists. *)
Lemma write_output_effect (rec_wav_fname : string) (fs : Z)
  (rec_samples : buffer) (w : world) :
  (exists w1,
      grows w w1
      /\ write_output rec_wav_fname fs rec_samples w
         = (Ok tt,
            mkWorld (w_dirs w1)
              ((rec_wav_fname, mkWav fs sd_dtype rec_samples) :: w_files w)
              (w_figures w))
      /\ Os.dir_in (OsPath.dirname rec_wav_fname) (w_dirs w1) = true)
  \/ exists e w1,
      grows w w1
      /\ write_output rec_wav_fname fs rec_samples w = (Err e, w1).
Proof.
  unfold write_output.
  set (d := OsPath.dirname rec_wav_fname).
  erewrite bind_ok by apply isdir_reads.
  destruct (Os.dir_in d (w_dirs w)) eqn:Ed; cbn [negb].
  - (* the directory exists *)
    erewrite bind_ok by reflexivity.
    destruct (wavfile_write_effect rec_wav_fname fs sd_dtype rec_samples w)
      as [(H & _) | [e H]]; rewrite H.
    + left; exists w; repeat split; try apply incl_refl; assumption.
    + right; exists e, w; split; [apply grows_refl | reflexivity].
  - (* the directory is made *)
    pose proof (makedirs_fuel_grows (String.length d) d w) as Hg.
    fold (Os.makedirs d) in Hg.
    destruct (Os.makedirs d w) as [[[] | e] w1] eqn:Em; cbn [snd] in Hg;
      [erewrite bind_ok by exact Em | erewrite bind_err by exact Em].
    + destruct (wavfile_write_effect rec_wav_fname fs sd_dtype rec_samples
                  w1) as [(H & Hp) | [e H]]; rewrite H.
      * left; exists w1.
        destruct Hg as (Hf & Hfig & Hd).
        rewrite Hf, Hfig.
        assert (Hne : Str.nonempty d = true).
        { destruct d; [| reflexivity].
          rewrite makedirs_empty in Em; discriminate Em. }
        fold d in Hp; rewrite Hne in Hp; cbn [negb orb] in Hp.
        repeat split; assumption.
      * right; exists e, w1; split; [exact Hg | reflexivity].
    + right; exists e, w1; split; [exact Hg | reflexivity].
Qed.

Lemma show_step_effect (show_plots : bool) (p r : buffer) (fs : Z)
  (w : world) :
  show_step show_plots p r fs w
  = if show_plots
    then if (fs =? 0)%Z then (Err ZeroDivisionError, w)
         else (Ok tt,
               mkWorld (w_dirs w) (w_files w)
                 (w_figures w ++ figures_of p r))
    else (Ok tt, w).
Proof.
  unfold show_step, plot_signal, figures_of.
  destruct show_plots; [| reflexivity].
  destruct (fs =? 0)%Z; [reflexivity |].
  unfold bind; cbn; rewrite <- app_assoc; reflexivity.
Qed.

Lemma bind_lift {A B} (r : result A) (k : A -> M B) (w : world) :
  bind (lift r) k w = match r with Ok a => k a w | Err e => (Err e, w) end.
Proof. destruct r; reflexivity. Qed.

(** The ways a call of [play_and_rec] ends in the model: an exception before
    or in the write step, the [ZeroDivisionError] of the plots after the
    write, or a return. *)
Lemma play_and_rec_outcome
  pb_wav_fname rec_wav_fname normalise rm_latency show_plots (w : world) :
  (exists e w1,
      grows w w1
      /\ play_and_rec rules sd_playrec pb_wav_fname rec_wav_fname
           normalise rm_latency show_plots w = (Err e, w1))
  \/ exists fs p r w1,
      grows w w1
      /\ Os.dir_in (OsPath.dirname rec_wav_fname) (w_dirs w1) = true
      /\ ((show_plots = true /\ fs = 0%Z
           /\ play_and_rec rules sd_playrec pb_wav_fname rec_wav_fname
                normalise rm_latency show_plots w
              = (Err ZeroDivisionError,
                 mkWorld (w_dirs w1)
                   ((rec_wav_fname, mkWav fs sd_dtype r) :: w_files w)
                   (w_figures w)))
          \/ ((show_plots = true -> fs <> 0%Z)
              /\ play_and_rec rules sd_playrec pb_wav_fname rec_wav_fname
                   normalise rm_latency show_plots w
                 = (Ok (r, p, fs),
                    mkWorld (w_dirs w1)
                      ((rec_wav_fname, mkWav fs sd_dtype r) :: w_files w)
                      (w_figures w
                         ++ if show_plots then figures_of p r else [])%list))).
Proof.
  unfold play_and_rec.
  assert (Hstop : forall e,
             exists e' w1,
               grows w w1
               /\ (Err e, w) = (@Err (buffer * buffer * Z) e', w1))
    by (intros e; exists e, w; split; [apply grows_refl | reflexivity]).
  destruct (wavfile_read_world pb_wav_fname w)
    as [[[[fs dt] pb0] | e] Hread];
    [erewrite bind_ok by exact Hread
    | erewrite bind_err by exact Hread; left; apply Hstop].
  cbn beta iota; rewrite bind_lift.
  destruct (normalise_step rules normalise dt pb0) as [p | e];
    [| left; apply Hstop].
  rewrite bind_lift.
  destruct (pad_playback fs p) as [padded | e]; [| left; apply Hstop].
  rewrite bind_lift.
  destruct (sd_playrec padded fs) as [raw | e]; [| left; apply Hstop].
  rewrite bind_lift.
  destruct (latency_step rm_latency raw) as [r | e]; [| left; apply Hstop].
  destruct (write_output_effect rec_wav_fname fs r w)
    as [(w1 & Hg & Hw & Hdir) | (e & w1 & Hg & Hw)].
  - erewrite bind_ok by exact Hw.
    right; exists fs, p, r, w1.
    split; [exact Hg |]; split; [exact Hdir |].
    pose proof (show_step_effect show_plots p r fs
                  (mkWorld (w_dirs w1)
                     ((rec_wav_fname, mkWav fs sd_dtype r) :: w_files w)
                     (w_figures w))) as Hshow.
    destruct show_plots.
    + destruct (Z.eqb_spec fs 0) as [E | E].
      * left; erewrite bind_err by exact Hshow.
        repeat split; assumption.
      * right; erewrite bind_ok by exact Hshow.
        split; [intros _; exact E | reflexivity].
    + right; erewrite bind_ok by exact Hshow.
      split; [discriminate |].
      cbn; rewrite app_nil_r; reflexivity.
  - erewrite bind_err by exact Hw.
    left; exists e, w1; split; [exact Hg | reflexivity].
Qed.

(** X1.  After a call that returns, the output file read back gives the
    sampling rate and the recording that were returned, as an array of the
    device's type, and the directory of the output file exists. *)
Theorem play_and_rec_output_reads_back
  pb_wav_fname rec_wav_fname normalise rm_latency show_plots (w : world)
  (r p : buffer) (f : Z) (w' : world) :
  play_and_rec rules sd_playrec pb_wav_fname rec_wav_fname
    normalise rm_latency show_plots w = (Ok (r, p, f), w') ->
  wavfile_read rec_wav_fname w' = (Ok (f, sd_dtype, r), w')
  /\ Os.isdir (OsPath.dirname rec_wav_fname) w' = (Ok true, w').
Proof.
  intros H.
  destruct (play_and_rec_outcome pb_wav_fname rec_wav_fname normalise
              rm_latency show_plots w)
    as [(e & w1 & _ & H') | (fs & p' & r' & w1 & _ & Hdir & H')].
  - rewrite H in H'; discriminate H'.
  - destruct H' as [(_ & _ & H') | (_ & H')]; rewrite H in H';
      [discriminate H' |].
    inversion H'; subst; clear H'.
    split.
    + unfold wavfile_read; cbn [w_files]; rewrite lookup_head; reflexivity.
    + unfold Os.isdir; cbn [w_dirs]; rewrite Hdir; reflexivity.
Qed.

(** X2.  A call that returns has shown, after the figures there were, the
    figure 1 [Original] of the playback it returns and then the figure 2
    [Recorded] of the recording it returns when [show_plots] is set, and no
    figure otherwise; with [show_plots] it returns for a non-zero sampling
    rate only. *)
Theorem play_and_rec_figures
  pb_wav_fname rec_wav_fname normalise rm_latency show_plots (w : world)
  (r p : buffer) (f : Z) (w' : world) :
  play_and_rec rules sd_playrec pb_wav_fname rec_wav_fname
    normalise rm_latency show_plots w = (Ok (r, p, f), w') ->
  w_figures w'
  = (w_figures w
       ++ if show_plots
          then [mkFigure 1 "Original" p; mkFigure 2 "Recorded" r]
          else [])%list
  /\ (show_plots = true -> f <> 0%Z).
Proof.
  intros H.
  destruct (play_and_rec_outcome pb_wav_fname rec_wav_fname normalise
              rm_latency show_plots w)
        as [(e & w1 & _ & H') | (fs & p' & r' & w1 & _ & _ & H')].
  - rewrite H in H'; discriminate H'.
  - destruct H' as [(_ & _ & H') | (Hfs & H')]; rewrite H in H';
      [discriminate H' |].
    inversion H'; subst; clear H'.
    split; [reflexivity | exact Hfs].
Qed.

(** X3.  Nothing is written or shown before the recording is there.  When
    the read of the input file, the normalisation, the padding, the device
    or the latency trimming raises (the steps before it having gone
    through), [play_and_rec] raises that exception and leaves the world as
    it was: no directory is made, no file is written, no figure is shown. *)
Theorem play_and_rec_raises_before_writing
  pb_wav_fname rec_wav_fname normalise rm_latency show_plots (w : world)
  (e : exn) :
  (wavfile_read pb_wav_fname w = (Err e, w)
   \/ exists fs dt pb0,
       wavfile_read pb_wav_fname w = (Ok (fs, dt, pb0), w)
       /\ (normalise_step rules normalise dt pb0 = Err e
           \/ exists pb_samples,
               normalise_step rules normalise dt pb0 = Ok pb_samples
               /\ (pad_playback fs pb_samples = Err e
                   \/ exists padded,
                       pad_playback fs pb_samples = Ok padded
                       /\ (sd_playrec padded fs = Err e
                           \/ exists raw,
                               sd_playrec padded fs = Ok raw
                               /\ latency_step rm_latency raw = Err e)))) ->
  play_and_rec rules sd_playrec pb_wav_fname rec_wav_fname
    normalise rm_latency show_plots w = (Err e, w).
Proof.
  unfold play_and_rec.
  intros [Hread | (fs & dt & pb0 & Hread & H)].
  - erewrite bind_err by exact Hread; reflexivity.
  - erewrite bind_ok by exact Hread; cbn beta iota.
    rewrite bind_lift.
    destruct H as [-> | (pb_samples & -> & H)]; [reflexivity |].
    rewrite bind_lift.
    destruct H as [-> | (padded & -> & H)]; [reflexivity |].
    rewrite bind_lift.
    destruct H as [-> | (raw & -> & Htrim)]; [reflexivity |].
    rewrite bind_lift, Htrim; reflexivity.
Qed.

End PipelineEffects.

(** ** The example run *)

Section ExampleRun.

Local Open Scope string_scope.

Lemma studio_run :
  play_and_rec Nep50 (loopback 2) "in/tone.wav" "out/tone.wav"
    true true true studio
  = (Ok (tone_recording, tone_playback, 8%Z), studio_after).
Proof. vm_compute; reflexivity. Qed.

Lemma studio_bare_run :
  play_and_rec Nep50 (loopback 2) "in/tone.wav" "tone.wav" true true true studio
  = (Err FileNotFoundError, studio).
Proof. vm_compute; reflexivity. Qed.

(** A path that ends in a slash is not written to: its directory is made,
    and opening it raises. *)
Lemma studio_slash_run :
  play_and_rec Nep50 (loopback 2) "in/tone.wav" "out/" true true true studio
  = (Err IsADirectoryError,
     mkWorld ("out" :: w_dirs studio) (w_files studio) (w_figures studio)).
Proof. vm_compute; reflexivity. Qed.

Lemma play_and_rec_output_reads_back_witness :
  wavfile_read "out/tone.wav" studio_after
  = (Ok (8%Z, sd_dtype, tone_recording), studio_after)
  /\ Os.isdir (OsPath.dirname "out/tone.wav") studio_after
     = (Ok true, studio_after).
Proof.
  exact (@play_and_rec_output_reads_back Nep50 (loopback 2)
           "in/tone.wav" "out/tone.wav" true true true studio
           tone_recording tone_playback 8%Z studio_after studio_run).
Defined.

Lemma play_and_rec_figures_witness :
  w_figures studio_after
  = (w_figures studio
       ++ [mkFigure 1 "Original" tone_playback;
           mkFigure 2 "Recorded" tone_recording])%list
  /\ (true = true -> 8%Z <> 0%Z).
Proof.
  exact (@play_and_rec_figures Nep50 (loopback 2)
           "in/tone.wav" "out/tone.wav" true true true studio
           tone_recording tone_playback 8%Z studio_after studio_run).
Defined.

(** The device is busy: the call raises its error, and [out] is not
    made. *)
Lemma play_and_rec_raises_before_writing_witness :
  play_and_rec Nep50 busy_device "in/tone.wav" "out/tone.wav"
    true true true studio
  = (Err PortAudioError, studio).
Proof.
  apply (@play_and_rec_raises_before_writing Nep50 busy_device
           "in/tone.wav" "out/tone.wav" true true true studio PortAudioError).
  right; exists 8%Z, Integer; eexists; split; [reflexivity |].
  right; eexists; split; [reflexivity |].
  right; eexists; split; [reflexivity |].
  left; reflexivity.
Defined.

End ExampleRun.

(** ** The script (lines 78-84) *)

Section MainFacts.

Local Open Scope string_scope.
Local Open Scope py_scope.

Variable rules : promotion.
Variable sd_playrec : buffer -> Z -> result buffer.

Lemma for_each_pair_cons pb rec rest (w : world) :
  for_each_pair rules sd_playrec ((pb, rec) :: rest) w
  = match play_and_rec rules sd_playrec pb rec true true true w with
    | (Ok _, w1) => for_each_pair rules sd_playrec rest w1
    | (Err e, w1) => (Err e, w1)
    end.
Proof. reflexivity. Qed.

Lemma for_each_pair_stops done :
  forall pb rec rest (w w1 : world) (e : exn) (w2 : world),
    for_each_pair rules sd_playrec done w = (Ok tt, w1) ->
    play_and_rec rules sd_playrec pb rec true true true w1 = (Err e, w2) ->
    for_each_pair rules sd_playrec (done ++ (pb, rec) :: rest)%list w
    = (Err e, w2).
Proof.
  induction done as [| [a b] done IH]; intros pb rec rest w w1 e w2 Hd Hf.
  - inversion Hd; subst w1.
    cbn [app]; rewrite for_each_pair_cons, Hf; reflexivity.
  - cbn [app]; rewrite for_each_pair_cons in *.
    destruct (play_and_rec rules sd_playrec a b true true true w)
      as [[x | e'] w'].
    + exact (IH pb rec rest w' w1 e w2 Hd Hf).
    + discriminate Hd.
Qed.

(** X4.  When the call for a pair raises, after the pairs before it went
    through, the script ends with that exception in the world that call
    left: the pairs after it are never played. *)
Theorem main_stops_at_first_failure
  (scan : string -> option dirtree) done pb rec rest
  (w w1 : world) (e : exn) (w2 : world) :
  get_wavfiles scan "input_db_small" "output_db_small"
  = (done ++ (pb, rec) :: rest)%list ->
  for_each_pair rules sd_playrec done w = (Ok tt, w1) ->
  play_and_rec rules sd_playrec pb rec true true true w1 = (Err e, w2) ->
  main rules sd_playrec scan w = (Err e, w2).
Proof.
  intros Hl Hd Hf; unfold main; cbv zeta; rewrite Hl.
  exact (for_each_pair_stops done pb rec rest w w1 e w2 Hd Hf).
Qed.

Lemma for_each_pair_success wavfiles :
  forall (w w' : world),
    for_each_pair rules sd_playrec wavfiles w = (Ok tt, w') ->
    (forall pb rec, In (pb, rec) wavfiles ->
                    exists f, Os.lookup rec (w_files w') = Some f)
    /\ List.length (w_figures w')
       = List.length (w_figures w) + 2 * List.length wavfiles
    /\ (forall q, (exists f, Os.lookup q (w_files w) = Some f) ->
                  exists f, Os.lookup q (w_files w') = Some f).
Proof.
  induction wavfiles as [| [pb rec] rest IH]; intros w w' H.
  - inversion H; subst w'.
    split; [intros pb rec [] |]; split; [cbn; lia | intros q Hq; exact Hq].
  - rewrite for_each_pair_cons in H.
    destruct (play_and_rec_outcome rules sd_playrec pb rec true true true w)
      as [(e & w1 & _ & H') | (fs & p & r & w1 & _ & _ & H')].
    + rewrite H' in H; discriminate H.
    + destruct H' as [(_ & _ & H') | (_ & H')]; rewrite H' in H;
        [discriminate H |].
      destruct (IH _ _ H) as (Hout & Hfig & Hkeep).
      cbn [w_files w_figures] in Hfig, Hkeep.
      split; [| split].
      * intros pb' rec' [E | Hin].
        -- inversion E; subst pb' rec'.
           apply Hkeep; eexists; apply lookup_head.
        -- exact (Hout pb' rec' Hin).
      * rewrite Hfig, length_app; cbn [List.length figures_of]; lia.
      * intros q Hq; apply Hkeep, lookup_kept, Hq.
Qed.

(** X5.  When the script ends without an exception, every output path of
    the pairs found holds a WAV file, two figures were shown for each pair,
    and every path that held a WAV file still holds one. *)
Theorem main_success_writes_every_output
  (scan : string -> option dirtree) (w w' : world) :
  main rules sd_playrec scan w = (Ok tt, w') ->
  (forall pb rec,
      In (pb, rec) (get_wavfiles scan "input_db_small" "output_db_small") ->
      exists f, Os.lookup rec (w_files w') = Some f)
  /\ List.length (w_figures w')
     = List.length (w_figures w)
       + 2 * List.length
               (get_wavfiles scan "input_db_small" "output_db_small")
  /\ (forall q, (exists f, Os.lookup q (w_files w) = Some f) ->
                exists f, Os.lookup q (w_files w') = Some f).
Proof. intros H; exact (for_each_pair_success _ w w' H). Qed.

Lemma filter_none {A} (f : A -> bool) (l : list A) :
  (forall x, In x l -> f x = false) -> filter f l = [].
Proof.
  induction l as [| a l IH]; intros H; [reflexivity |].
  cbn; rewrite (H a (or_introl eq_refl)).
  apply IH; intros x Hx; apply H; right; exact Hx.
Qed.

Lemma flat_map_none {A B} (f : A -> list B) (l : list A) :
  (forall x, In x l -> f x = []) -> flat_map f l = [].
Proof.
  induction l as [| a l IH]; intros H; [reflexivity |].
  cbn; rewrite (H a (or_introl eq_refl)).
  apply IH; intros x Hx; apply H; right; exact Hx.
Qed.

(** X6.  When the input directory is missing, or holds at no depth a file
    whose name ends in [.wav] or [.WAV], the script ends without an
    exception and leaves the world as it was. *)
Theorem main_without_wav_file_does_nothing
  (scan : string -> option dirtree) (w : world) :
  (forall t root f,
      scan "input_db_small" = Some t ->
      file_in "input_db_small" t root f -> is_wav f = false) ->
  main rules sd_playrec scan w = (Ok tt, w).
Proof.
  intros H; unfold main; cbv zeta.
  assert (E : get_wavfiles scan "input_db_small" "output_db_small" = []).
  { unfold get_wavfiles, os_walk.
    destruct (scan "input_db_small") as [t |] eqn:Es; [| reflexivity].
    apply flat_map_none; intros [[root dirs] filenames] Hin.
    rewrite filter_none; [reflexivity |].
    intros f Hf; apply (H t root f eq_refl).
    exact (walk_tree_sound t _ _ _ _ _ Hin Hf). }
  rewrite E; reflexivity.
Qed.

End MainFacts.

Section MainExamples.

Local Open Scope string_scope.

(** The script on [example_scan] where [y.WAV] has no sample: [x.wav] is
    recorded, then the normalisation of [y.WAV] raises. *)
Lemma main_stops_at_first_failure_witness :
  let w1 :=
    snd (for_each_pair Nep50 (loopback 2)
           [("input_db_small/a/x.wav", "output_db_small/a/x.wav")]
           db_world_empty_file) in
  main Nep50 (loopback 2) example_scan db_world_empty_file
  = (Err ValueError, w1).
Proof.
  intros w1.
  apply (@main_stops_at_first_failure Nep50 (loopback 2) example_scan
           [("input_db_small/a/x.wav", "output_db_small/a/x.wav")]
           "input_db_small/b/y.WAV" "output_db_small/b/y.WAV" []
           db_world_empty_file w1 ValueError w1).
  - vm_compute; reflexivity.
  - vm_compute; reflexivity.
  - vm_compute; reflexivity.
Defined.

Lemma main_success_writes_every_output_witness :
  let w' := snd (main Nep50 (loopback 2) example_scan db_world) in
  (forall pb rec,
      In (pb, rec)
        (get_wavfiles example_scan "input_db_small" "output_db_small") ->
      exists f, Os.lookup rec (w_files w') = Some f)
  /\ List.length (w_figures w')
     = List.length (w_figures db_world)
       + 2 * List.length
               (get_wavfiles example_scan "input_db_small" "output_db_small")
  /\ (forall q, (exists f, Os.lookup q (w_files db_world) = Some f) ->
                exists f, Os.lookup q (w_files w') = Some f).
Proof.
  intros w'.
  apply (@main_success_writes_every_output Nep50 (loopback 2) example_scan
           db_world w').
  vm_compute; reflexivity.
Defined.

Lemma main_without_wav_file_does_nothing_witness :
  main Nep50 (loopback 2) notes_scan db_world = (Ok tt, db_world).
Proof.
  apply (@main_without_wav_file_does_nothing Nep50 (loopback 2)
           notes_scan db_world).
  intros t root f Hs Hf.
  vm_compute in Hs; inversion Hs; subst t; clear Hs.
  inversion Hf as [? ? ? ? Hin | ? ? ? ? ? ? ? Hin _]; subst.
  - destruct Hin as [E | [E | []]]; subst f; reflexivity.
  - destruct Hin.
Defined.

End MainExamples.

(** ** More on normalisation (lines 27-28) *)

Section NormaliseMore.

Lemma maximum_nan (a b : sample) :
  Binary64.is_nan a = true \/ Binary64.is_nan b = true ->
  Binary64.is_nan (Np.maximum a b) = true.
Proof.
  unfold Np.maximum; intros [Ha | Hb].
  - rewrite Ha, orb_true_r; exact Ha.
  - destruct b; try discriminate Hb.
    destruct a; reflexivity.
Qed.

Lemma fold_maximum_nan (t : buffer) :
  forall x,
    Binary64.is_nan x = true
    \/ Exists (fun y => Binary64.is_nan y = true) t ->
    Binary64.is_nan (fold_left Np.maximum t x) = true.
Proof.
  induction t as [| y t IH]; intros x [Hx | Ht]; cbn [fold_left].
  - exact Hx.
  - inversion Ht.
  - apply IH; left; apply maximum_nan; left; exact Hx.
  - apply IH; inversion Ht as [? ? Hy | ? ? Ht']; subst.
    + left; apply maximum_nan; right; exact Hy.
    + right; exact Ht'.
Qed.

Lemma div_by_scaled_nan (rules : promotion) (dt : dtype) (x m : sample) :
  Binary64.is_nan m = true ->
  Np.divide dt x (Np.scale rules dt Binary64.c0_8 m) = Binary64.nan.
Proof.
  destruct m; try discriminate; intros _.
  destruct dt, rules; destruct x; reflexivity.
Qed.

(** X7.  One NaN sample in the playback buffer makes every sample of the
    normalised buffer a NaN: the maximum is a NaN, and so is every
    quotient. *)
Theorem normalise_nan_spreads (rules : promotion) (dt : dtype)
  (pb_samples : buffer) (x : sample) :
  In x pb_samples ->
  Binary64.is_nan x = true ->
  normalise_step rules true dt pb_samples
  = Ok (repeat Binary64.nan (List.length pb_samples)).
Proof.
  intros Hin Hx; unfold normalise_step, normalise_samples.
  destruct pb_samples as [| y t]; [destruct Hin |].
  unfold Np.max, Np.divide_scalar.
  assert (Hm : Binary64.is_nan (fold_left Np.maximum t y) = true).
  { apply fold_maximum_nan; destruct Hin as [-> | Hin]; [left; exact Hx |].
    right; apply Exists_exists; exists x; split; assumption. }
  f_equal; generalize (y :: t); intros l.
  induction l as [| z l IH]; cbn [map List.length repeat].
  - reflexivity.
    - rewrite (div_by_scaled_nan rules dt z _ Hm), IH; reflexivity.
Qed.

Lemma normalise_nan_spreads_witness :
  normalise_step Nep50 true Float64
    [Binary64.of_Z 2; Binary64.nan; Binary64.of_Z 1]
  = Ok [Binary64.nan; Binary64.nan; Binary64.nan].
Proof.
  apply (@normalise_nan_spreads Nep50 Float64
           [Binary64.of_Z 2; Binary64.nan; Binary64.of_Z 1] Binary64.nan).
  - right; left; reflexivity.
  - reflexivity.
Defined.

Lemma div_by_scaled_zero_not_finite (rules : promotion) (dt : dtype)
  (x m : sample) :
  Binary64.is_zero m = true ->
  Binary64.is_finite (Np.divide dt x (Np.scale rules dt Binary64.c0_8 m))
  = false.
Proof.
  destruct m; try discriminate; intros _.
  destruct dt, rules; destruct x; reflexivity.
Qed.

(** X8.  When the maximum of the playback buffer is a zero (no sample is
    positive, one is zero), normalisation raises nothing and returns as
    many samples, none of them finite: every quotient by [0.8 * 0] is an
    infinity or a NaN. *)
Theorem normalise_zero_maximum (rules : promotion) (dt : dtype)
  (pb_samples : buffer) (m : sample) :
  Np.max pb_samples = Ok m ->
  Binary64.is_zero m = true ->
  exists out,
    normalise_step rules true dt pb_samples = Ok out
    /\ List.length out = List.length pb_samples
    /\ Forall (fun y => Binary64.is_finite y = false) out.
Proof.
  intros Hmax Hm; unfold normalise_step, normalise_samples; rewrite Hmax.
  eexists; split; [reflexivity |]; unfold Np.divide_scalar; split.
  - apply length_map.
  - apply Forall_map, Forall_forall; intros y _.
    apply div_by_scaled_zero_not_finite, Hm.
Qed.

Lemma normalise_zero_maximum_witness :
  exists out,
    normalise_step Nep50 true Integer
      [Binary64.of_Z (-3); Binary64.zero; Binary64.of_Z (-1)]
    = Ok out
    /\ List.length out = 3
    /\ Forall (fun y => Binary64.is_finite y = false) out.
Proof.
    apply (@normalise_zero_maximum Nep50 Integer
           [Binary64.of_Z (-3); Binary64.zero; Binary64.of_Z (-1)]
           Binary64.zero).
  - vm_compute; reflexivity.
  - reflexivity.
Defined.

End NormaliseMore.

(** ** More on latency trimming (lines 31-34) *)

Section TrimMore.

Import Np.

Lemma argmax_scan_false_spec (l : list bool) :
  forall besti i,
    (argmax_scan false besti i l = besti /\ Forall (fun b => b = false) l)
    \/ exists k,
        argmax_scan false besti i l = i + k
        /\ nth_error l k = Some true
        /\ forall j, j < k -> nth_error l j = Some false.
Proof.
  induction l as [| b t IH]; intros besti i.
  - left; split; [reflexivity | constructor].
  - destruct b; cbn [argmax_scan andb negb].
    + right; exists 0; rewrite argmax_scan_true.
      split; [lia |]; split; [reflexivity | intros j Hj; lia].
    + destruct (IH besti (S i)) as [[E Hall] | (k & E & Hk & Hlt)].
      * left; split; [exact E | constructor; [reflexivity | exact Hall]].
      * right; exists (S k); split; [rewrite E; lia |].
        split; [exact Hk |].
        intros [| j] Hj; [reflexivity | apply Hlt; lia].
Qed.

(** The index [np.argmax] returns on a non-empty boolean array: the first
    [True], or 0 when there is none. *)
Lemma argmax_spec (b : bool) (t : list bool) :
  exists k,
    argmax (b :: t) = Ok k
    /\ k < List.length (b :: t)
    /\ (forall j, j < k -> nth_error (b :: t) j = Some false)
    /\ (nth_error (b :: t) k = Some true
        \/ (k = 0 /\ Forall (fun c => c = false) (b :: t))).
Proof.
  unfold argmax; destruct b.
  - exists 0; rewrite argmax_scan_true.
    split; [reflexivity |]; split; [cbn; lia |].
    split; [intros j Hj; lia | left; reflexivity].
  - destruct (argmax_scan_false_spec t 0 1) as [[E Hall] | (k & E & Hk & Hlt)].
    + exists 0; rewrite E.
      split; [reflexivity |]; split; [cbn; lia |].
      split; [intros j Hj; lia |].
      right; split; [reflexivity | constructor; [reflexivity | exact Hall]].
    + exists (S k); rewrite E.
      split; [reflexivity |].
      split; [cbn; apply -> Nat.succ_lt_mono;
              apply nth_error_Some; congruence |].
      split; [| left; exact Hk].
      intros [| j] Hj; [reflexivity | apply Hlt; lia].
Qed.

Lemma exceeds_of_abs_gt (a : buffer) (j : nat) (y : sample) (c : bool) :
  nth_error (abs_gt a eps) j = Some c ->
  nth_error a j = Some y ->
  exceeds_eps y = c.
Proof.
  intros Hc Hy; rewrite nth_error_abs_gt in Hc.
  unfold exceeds_eps.
  destruct (nth_error a j) as [z |]; [| discriminate Hy].
  inversion Hy; subst z; cbn in Hc; congruence.
Qed.

(** X9.  Latency trimming that returns has dropped a leading run of samples
    none of which exceeds [eps], and not the whole buffer: what it returns
    is a non-empty suffix of the recording, and every sample above [eps] is
    still in it. *)
Theorem latency_trim_drops_quiet_samples_only (rec_samples out : buffer) :
  latency_step true rec_samples = Ok out ->
  exists k,
    k < List.length rec_samples
    /\ out = skipn k rec_samples
    /\ out <> []
    /\ forall j y, j < k -> nth_error rec_samples j = Some y ->
                   exceeds_eps y = false.
Proof.
  unfold latency_step, remove_latency; intros H.
  destruct rec_samples as [| x t]; [discriminate H |].
  change (abs_gt (x :: t) eps) with
    (Binary64.ltb eps (Binary64.abs x) :: abs_gt t eps) in H.
  destruct (argmax_spec (Binary64.ltb eps (Binary64.abs x)) (abs_gt t eps))
    as (k & E & Hk & Hlt & _).
  rewrite E in H; inversion H; subst out; clear H.
  change (Binary64.ltb eps (Binary64.abs x) :: abs_gt t eps)
    with (abs_gt (x :: t) eps) in *.
  unfold abs_gt in Hk; rewrite length_map in Hk.
  exists k; split; [exact Hk |]; split; [reflexivity |]; split.
  - unfold slice_from; intros Hnil.
    apply (f_equal (@List.length sample)) in Hnil.
    rewrite length_skipn in Hnil; cbn [List.length] in Hnil, Hk.
    unfold sample, Binary64.float in *; lia.
  - intros j y Hj Hy.
    exact (exceeds_of_abs_gt (x :: t) j y false (Hlt j Hj) Hy).
Qed.

Lemma latency_trim_drops_quiet_samples_only_witness :
  exists k,
    k < 4
    /\ [Binary64.c1_0; Binary64.zero]
       = skipn k [Binary64.zero; eps; Binary64.c1_0; Binary64.zero]
    /\ [Binary64.c1_0; Binary64.zero] <> []
    /\ forall j y,
         j < k ->
         nth_error [Binary64.zero; eps; Binary64.c1_0; Binary64.zero] j
         = Some y ->
         exceeds_eps y = false.
Proof.
  apply (@latency_trim_drops_quiet_samples_only
           [Binary64.zero; eps; Binary64.c1_0; Binary64.zero]
           [Binary64.c1_0; Binary64.zero]).
  vm_compute; reflexivity.
Defined.

(** X10.  Latency trimming is idempotent: trimming what it returned returns
    the same buffer. *)
Theorem latency_trim_idempotent (rec_samples out : buffer) :
  latency_step true rec_samples = Ok out ->
  latency_step true out = Ok out.
Proof.
  unfold latency_step, remove_latency; intros H.
  destruct rec_samples as [| x t]; [discriminate H |].
  change (abs_gt (x :: t) eps) with
    (Binary64.ltb eps (Binary64.abs x) :: abs_gt t eps) in H.
  destruct (argmax_spec (Binary64.ltb eps (Binary64.abs x)) (abs_gt t eps))
    as (k & E & Hk & _ & Hcase).
  rewrite E in H.
  change (Binary64.ltb eps (Binary64.abs x) :: abs_gt t eps)
    with (abs_gt (x :: t) eps) in *.
  destruct Hcase as [Htrue | [-> _]].
  - (* the buffer returned starts with a sample above eps *)
    inversion H; subst out; clear H.
    rewrite nth_error_abs_gt in Htrue.
    destruct (nth_error (x :: t) k) as [y |] eqn:Ey; [| discriminate Htrue].
    cbn in Htrue; inversion Htrue as [Hy]; clear Htrue.
    unfold slice_from.
    assert (Hs : exists t', skipn k (x :: t) = y :: t').
    { clear - Ey; revert Ey; generalize (x :: t); intros l.
      revert l; induction k as [| k IH]; intros [| z l] Ey;
        try discriminate Ey.
      - inversion Ey; subst z; exists l; reflexivity.
      - exact (IH l Ey). }
    destruct Hs as [t' ->].
    unfold abs_gt; cbn [map]; rewrite Hy.
    unfold argmax; rewrite argmax_scan_true; reflexivity.
  - (* nothing was dropped *)
    inversion H as [Ho]; unfold slice_from in *; cbn [skipn] in *.
    rewrite E; reflexivity.
Qed.

Lemma latency_trim_idempotent_witness :
  latency_step true [Binary64.c1_0; Binary64.zero]
  = Ok [Binary64.c1_0; Binary64.zero].
Proof.
  apply (@latency_trim_idempotent
           [Binary64.zero; eps; Binary64.c1_0; Binary64.zero]
           [Binary64.c1_0; Binary64.zero]).
  vm_compute; reflexivity.
Defined.

End TrimMore.

(** ** More on padding (line 29) *)

Section PaddingMore.

Lemma odd_half_mod4 (fs : Z) :
  Z.odd fs && Z.odd (fs / 2) = (fs mod 4 =? 3)%Z.
Proof.
  pose proof (Zmod_odd fs) as H1.
  pose proof (Zmod_odd (fs / 2)) as H2.
  destruct (Z.odd fs), (Z.odd (fs / 2)), (Z.eqb_spec (fs mod 4) 3);
    cbn; try reflexivity; exfalso;
    Z.div_mod_to_equations; lia.
Qed.

(** X11.  For a sampling rate [fs >= 0] the silence appended is [fs // 2]
    samples, and one more when [fs] is 3 modulo 4 (Python rounds a half to
    the even integer): twice its length is within one sample of [fs]. *)
Theorem padding_is_half_the_rate (fs : Z) (pb_samples : buffer) :
  (0 <= fs)%Z ->
  exists padded,
    pad_playback fs pb_samples = Ok padded
    /\ (Z.of_nat (List.length padded)
        = Z.of_nat (List.length pb_samples)
          + fs / 2 + (if fs mod 4 =? 3 then 1 else 0))%Z
    /\ (Z.abs (2 * (Z.of_nat (List.length padded)
                    - Z.of_nat (List.length pb_samples)) - fs) <= 1)%Z.
Proof.
  intros Hfs; eexists; split; [apply pad_playback_ok, Hfs |].
  rewrite length_app, repeat_length, Nat2Z.inj_add.
  rewrite Z2Nat.id by (apply round_half_nonneg, Hfs).
  rewrite round_half, odd_half_mod4.
  split; [lia |].
  destruct (Z.eqb_spec (fs mod 4) 3); Z.div_mod_to_equations; lia.
Qed.

Lemma padding_is_half_the_rate_witness :
  exists padded,
    pad_playback 11025 [Binary64.c1_0] = Ok padded
    /\ (Z.of_nat (List.length padded)
        = Z.of_nat 1 + 11025 / 2 + (if 11025 mod 4 =? 3 then 1 else 0))%Z
    /\ (Z.abs (2 * (Z.of_nat (List.length padded) - Z.of_nat 1) - 11025)
        <= 1)%Z.
Proof.
  apply (@padding_is_half_the_rate 11025 [Binary64.c1_0]); lia.
Defined.

End PaddingMore.

(** ** More on [play_and_rec] and on file discovery *)

Section EdgeCases.

Local Open Scope string_scope.
Local Open Scope py_scope.

(** X12.  An input file without samples makes [play_and_rec] raise
    [ValueError] when normalisation is enabled, whatever the device and the
    other options: the maximum of no sample is asked for; the world is left
    as it was. *)
Theorem empty_input_file_raises
  (rules : promotion) (sd_playrec : buffer -> Z -> result buffer)
    pb_wav_fname rec_wav_fname rm_latency show_plots (w : world) (fs : Z)
  (dt : dtype) :
  wavfile_read pb_wav_fname w = (Ok (fs, dt, []), w) ->
  play_and_rec rules sd_playrec pb_wav_fname rec_wav_fname
    true rm_latency show_plots w = (Err ValueError, w).
Proof.
  intros Hread; unfold play_and_rec.
  erewrite bind_ok by exact Hread; reflexivity.
Qed.

Lemma empty_input_file_raises_witness :
  play_and_rec Nep50 (loopback 2) "input_db_small/b/y.WAV" "out/y.WAV"
    true true true db_world_empty_file
  = (Err ValueError, db_world_empty_file).
Proof.
  apply (@empty_input_file_raises Nep50 (loopback 2)
           "input_db_small/b/y.WAV" "out/y.WAV" true true
                      db_world_empty_file 8%Z Integer).
  reflexivity.
Defined.

Lemma append_assoc (a b c : string) : (a ++ b) ++ c = a ++ b ++ c.
Proof. induction a as [| x a IH]; cbn; [reflexivity | rewrite IH; reflexivity]. Qed.

Lemma join_ends_with (a b : string) : exists p, OsPath.join a b = p ++ b.
Proof.
  unfold OsPath.join.
  destruct (Str.startswith b "/"); [exists ""; reflexivity |].
  destruct (negb (Str.nonempty a) || Str.endswith a "/").
  - exists a; reflexivity.
  - exists (a ++ "/"); rewrite append_assoc; reflexivity.
Qed.

Lemma endswith_append (p f : string) : Str.endswith (p ++ f) f = true.
Proof. apply endswith_spec; exists p; reflexivity. Qed.

Lemma is_wav_append (p f : string) : is_wav f = true -> is_wav (p ++ f) = true.
Proof.
  intros H; apply is_wav_spec in H as [q [-> | ->]]; apply is_wav_spec;
    exists (p ++ q); rewrite !append_assoc; [left | right]; reflexivity.
Qed.

(** X13.  Both paths of every pair of [get_wavfiles] end with the name of
    the file found, so both end in [.wav] or in [.WAV], the output path with
    the extension of the input path. *)
Theorem get_wavfiles_keeps_file_names
  (scan : string -> option dirtree) (input_dir output_dir : string)
  (in_file out_file : string) :
  In (in_file, out_file) (get_wavfiles scan input_dir output_dir) ->
  exists filename,
    is_wav filename = true
    /\ Str.endswith in_file filename = true
    /\ Str.endswith out_file filename = true
    /\ is_wav in_file = true
    /\ is_wav out_file = true.
Proof.
  unfold get_wavfiles; intros H.
  apply in_flat_map in H as [[[root dirs] filenames] [_ H]].
  apply in_map_iff in H as [f [Hp Hf]].
  apply filter_In in Hf as [_ Hwav].
  unfold wavfile_pair in Hp; inversion Hp; subst in_file out_file; clear Hp.
  destruct (join_ends_with root f) as [p ->].
  destruct (join_ends_with (Str.replace root input_dir output_dir) f)
    as [q ->].
  exists f; split; [exact Hwav |].
  split; [apply endswith_append |].
  split; [apply endswith_append |].
  split; apply is_wav_append, Hwav.
Qed.

Lemma get_wavfiles_keeps_file_names_witness :
  exists filename,
    is_wav filename = true
    /\ Str.endswith "input_db_small/b/y.WAV" filename = true
    /\ Str.endswith "output_db_small/b/y.WAV" filename = true
    /\ is_wav "input_db_small/b/y.WAV" = true
    /\ is_wav "output_db_small/b/y.WAV" = true.
Proof.
  apply (@get_wavfiles_keeps_file_names example_scan
           "input_db_small" "output_db_small").
  vm_compute; right; left; reflexivity.
Defined.

Lemma prefix_split (p : string) :
  forall s, String.prefix p s = true -> exists rest, s = p ++ rest.
Proof.
  induction p as [| c p IH]; intros s H.
  - exists s; reflexivity.
  - destruct s as [| b s]; [discriminate H |].
    cbn in H; destruct (ascii_dec c b) as [-> | _]; [| discriminate H].
    destruct (IH s H) as [rest ->]; exists rest; reflexivity.
Qed.

Lemma replace_scan_same (c : ascii) (old' : string) (n : nat) :
  forall s,
    String.length s <= n ->
    Str.replace_scan (String c old') (String c old') 0 s = s.
Proof.
  induction n as [| n IH]; intros s Hs.
  - destruct s; [reflexivity | cbn in Hs; lia].
  - destruct s as [| a t]; [reflexivity |].
    cbn [Str.replace_scan].
    destruct (String.prefix (String c old') (String a t)) eqn:Ep.
    + apply prefix_split in Ep as [rest E].
      cbn in E; inversion E; subst a t.
      replace (String.length (String c old') - 1) with (String.length old')
        by (cbn [String.length]; lia).
      rewrite replace_scan_skip, IH; [reflexivity |].
      cbn [String.length] in Hs; rewrite length_append in Hs; lia.
    + rewrite IH; [reflexivity | cbn [String.length] in Hs; lia].
Qed.

Lemma interleave_nothing (s : string) : Str.interleave s "" = s.
Proof. induction s as [| a s IH]; cbn; [reflexivity | rewrite IH; reflexivity]. Qed.

Lemma replace_same (s old : string) : Str.replace s old old = s.
Proof.
  unfold Str.replace; destruct old as [| c old']; cbn [Str.nonempty].
  - apply interleave_nothing.
  - apply (replace_scan_same c old' (String.length s)); lia.
Qed.

(** X14.  With the output directory equal to the input directory, every
    pair of [get_wavfiles] names one file twice: the output path is the
    input path. *)
Theorem get_wavfiles_same_directory
  (scan : string -> option dirtree) (dir in_file out_file : string) :
  In (in_file, out_file) (get_wavfiles scan dir dir) ->
  out_file = in_file.
Proof.
  unfold get_wavfiles; intros H.
  apply in_flat_map in H as [[[root dirs] filenames] [_ H]].
  apply in_map_iff in H as [f [Hp _]].
  unfold wavfile_pair in Hp; rewrite replace_same in Hp.
  inversion Hp; reflexivity.
Qed.

Lemma get_wavfiles_same_directory_witness :
  "input_db_small/a/x.wav" = "input_db_small/a/x.wav".
Proof.
  apply (@get_wavfiles_same_directory example_scan "input_db_small"
           "input_db_small/a/x.wav" "input_db_small/a/x.wav").
  vm_compute; left; reflexivity.
Defined.

(** X15.  For a directory path that is the input root followed by a rest in
    which the text of the input root does not occur, the output path of a
    file is its input path with the leading root replaced by the output
    root. *)
Theorem wavfile_pair_mirrors_the_path
  (input_dir output_dir rest filename : string) :
  Str.nonempty input_dir = true ->
  occurs input_dir rest = false ->
  wavfile_pair input_dir output_dir (input_dir ++ rest) filename
  = (OsPath.join (input_dir ++ rest) filename,
     OsPath.join (output_dir ++ rest) filename).
Proof.
  intros Hne Hocc; unfold wavfile_pair.
  rewrite (proj1 (replace_leading_only input_dir output_dir rest Hne Hocc)).
  reflexivity.
Qed.

Lemma wavfile_pair_mirrors_the_path_witness :
  wavfile_pair "input_db_small" "output_db_small"
    ("input_db_small" ++ "/a/inputs") "x.wav"
  = (OsPath.join ("input_db_small" ++ "/a/inputs") "x.wav",
     OsPath.join ("output_db_small" ++ "/a/inputs") "x.wav").
Proof.
  apply (@wavfile_pair_mirrors_the_path
           "input_db_small" "output_db_small" "/a/inputs" "x.wav");
    reflexivity.
Defined.

End EdgeCases.
